(** * igreset: password-reset tokens (app.py)

    A shallow embedding of [app.py]: the [reset_tokens] table and its three
    helpers ([create_token], [get_token_row], [mark_used]), the mail helper
    [send_reset_email], the two Flask handlers on [RESET_PATH] ([get_reset],
    [post_reset]) and the Telegram conversation ([valid_email],
    [receive_email] and the command handlers).

    Conventions of the embedding.
    - A Python [str] is a [string] whose characters are code points below 256.
    - A naive UTC [datetime] is the number of microseconds since
      [datetime.min]; a [timedelta] is a number of microseconds.
    - What the program asks of the outside world is an argument of the model:
      the clock ([datetime.utcnow()]), the random source
      ([secrets.token_urlsafe(32)]) and the outcome of each mail-library call.
    - What the program does to the outside world is recorded: the rows of the
      table, and a trace of the session, SMTP and chat calls in program order.
    - Handlers are computations in a state-and-exception monad over that
      world. *)

From Stdlib Require Import ZArith List String Ascii Bool Lia.
From Stdlib Require Import DecimalString.
Import ListNotations.

Local Open Scope string_scope.
Local Open Scope list_scope.
Local Open Scope Z_scope.

(* ===================================================================== *)
(** ** Python strings *)
(* ===================================================================== *)

Module Py.

(** [str.isspace] on one character, which is also what [str.strip()] removes
    and what [\s] matches in a [str] pattern: TAB..CR, FS..US, space, NEL and
    NBSP are the white-space code points below 256. *)
Definition isspace (c : ascii) : bool :=
  let n := N_of_ascii c in
  (((9 <=? n) && (n <=? 13)) || ((28 <=? n) && (n <=? 32))
   || (n =? 133) || (n =? 160))%N.

(** [str.lower] on one character: [A-Z], and the Latin-1 capitals
    U+00C0..U+00DE without the multiplication sign U+00D7, move up by 32. *)
Definition lower_char (c : ascii) : ascii :=
  let n := N_of_ascii c in
  if (((65 <=? n) && (n <=? 90))
      || ((192 <=? n) && (n <=? 222) && negb (n =? 215)))%N
  then ascii_of_N (n + 32) else c.

(** [s.lower()] *)
Fixpoint lower (s : string) : string :=
  match s with
  | EmptyString => EmptyString
  | String c s' => String (lower_char c) (lower s')
  end.

(** [s.lstrip()] *)
Fixpoint lstrip (s : string) : string :=
  match s with
  | EmptyString => EmptyString
  | String c s' => if isspace c then lstrip s' else s
  end.

(** [s.rstrip()] *)
Fixpoint rstrip (s : string) : string :=
  match s with
  | EmptyString => EmptyString
  | String c s' =>
      match rstrip s' with
      | EmptyString => if isspace c then EmptyString else String c EmptyString
      | r => String c r
      end
  end.

(** [s.strip()] *)
Definition strip (s : string) : string := rstrip (lstrip s).

(** [s.rstrip(ch)] for a one-character argument. *)
Fixpoint rstrip_char (ch : ascii) (s : string) : string :=
  match s with
  | EmptyString => EmptyString
  | String c s' =>
      match rstrip_char ch s' with
      | EmptyString => if Ascii.eqb c ch then EmptyString else String c EmptyString
      | r => String c r
      end
  end.

(** Truth value of a [str]: [not s] holds exactly for the empty string. *)
Definition truthy (s : string) : bool :=
  match s with EmptyString => false | String _ _ => true end.

(** Truth value of an optional [str] ([None] and [""] are false). *)
Definition truthy_opt (o : option string) : bool :=
  match o with None => false | Some s => truthy s end.

(** [x or d] for an optional string [x]. *)
Definition or_else (o : option string) (d : string) : string :=
  match o with
  | Some s => if truthy s then s else d
  | None => d
  end.

(** A line boundary of [str.splitlines]: LF, VT, FF, CR, FS, GS, RS and NEL
    are the ones below 256. *)
Definition is_linebreak (c : ascii) : bool :=
  let n := N_of_ascii c in
  (((10 <=? n) && (n <=? 13)) || ((28 <=? n) && (n <=? 30)) || (n =? 133))%N.

(** [len(s.splitlines()) > 1]: some character follows the first line
    boundary, CR LF counting as one boundary. *)
Fixpoint several_lines (s : string) : bool :=
  match s with
  | EmptyString => false
  | String c s' =>
      if is_linebreak c then
        match s' with
        | EmptyString => false
        | String d s'' =>
            if Ascii.eqb c (ascii_of_nat 13) && Ascii.eqb d (ascii_of_nat 10)
            then truthy s'' else true
        end
      else several_lines s'
  end.

(** [str(n)] for an [int]. *)
Definition str_of_int (n : Z) : string := NilZero.string_of_int (Z.to_int n).

(** The line feed, written [\n] in the source. *)
Definition nl : string := String (ascii_of_nat 10) EmptyString.

End Py.

Arguments Py.isspace : simpl never.
Arguments Py.lower_char : simpl never.

(* ===================================================================== *)
(** ** The [re] fragment used by [EMAIL_RE] *)
(* ===================================================================== *)

Module Re.

(** A member of a bracket expression: a literal character or [\s]. *)
Inductive set_item : Type :=
| SetChar (c : ascii)
| SetSpace.

(** One character position: a literal, or a negated set [[^...]]. *)
Inductive atom : Type :=
| Literal (c : ascii)
| NotIn (items : list set_item).

(** A pattern is a sequence of atoms, each taken once or under the greedy
    [+]. *)
Inductive piece : Type :=
| Once (a : atom)
| Plus (a : atom).

Definition pattern := list piece.

Definition item_matches (i : set_item) (c : ascii) : bool :=
  match i with
  | SetChar d => Ascii.eqb c d
  | SetSpace => Py.isspace c
  end.

Definition atom_matches (a : atom) (c : ascii) : bool :=
  match a with
  | Literal d => Ascii.eqb c d
  | NotIn items => negb (existsb (fun i => item_matches i c) items)
  end.

(** The greedy [a+] followed by the rest of the pattern, [k]: take one
    character, then first try to take more, and fall back to [k]. *)
Fixpoint match_plus (a : atom) (k : string -> option nat) (s : string)
  : option nat :=
  match s with
  | String c s' =>
      if atom_matches a c then
        match match_plus a k s' with
        | Some n => Some (S n)
        | None => option_map S (k s')
        end
      else None
  | EmptyString => None
  end.

(** Backtracking match of [p] at the start of [s]: the number of characters
    of the match the engine finds ([m.end()]), or [None]. *)
Fixpoint match_at (p : pattern) (s : string) : option nat :=
  match p with
  | [] => Some O
  | Once a :: p' =>
      match s with
      | String c s' =>
          if atom_matches a c then option_map S (match_at p' s') else None
      | EmptyString => None
      end
  | Plus a :: p' => match_plus a (match_at p') s
  end.

(** [pattern.match(s)]: anchored at the start of [s], not at its end. *)
Definition re_match (p : pattern) (s : string) : option nat := match_at p s.

End Re.

(* ===================================================================== *)
(** ** [datetime] *)
(* ===================================================================== *)

Module datetime.

(** A [datetime], in microseconds since [datetime.min]. *)
Definition t := Z.

Definition us_per_minute : Z := 60 * 1000000.
Definition us_per_day : Z := 86400 * 1000000.

(** [datetime.max] is the last microsecond of day 3652059. *)
Definition max : Z := 3652059 * us_per_day - 1.

(** [timedelta(minutes=m)]: [OverflowError] ([None]) when the number of days
    has magnitude above 999999999. *)
Definition timedelta_minutes (m : Z) : option Z :=
  let us := m * us_per_minute in
  let days := us / us_per_day in
  if (-999999999 <=? days) && (days <=? 999999999) then Some us else None.

(** [d + delta]: [OverflowError] ([None]) outside [datetime.min],
    [datetime.max]. *)
Definition add (d : t) (delta : Z) : option t :=
  let r := d + delta in
  if (0 <=? r) && (r <=? max) then Some r else None.

(** [d + timedelta(minutes=m)] *)
Definition add_minutes (d : t) (m : Z) : option t :=
  match timedelta_minutes m with
  | Some delta => add d delta
  | None => None
  end.

(** [a < b] *)
Definition lt (a b : t) : bool := a <? b.

End datetime.


(* ===================================================================== *)
(** ** Configuration (from env) *)
(* ===================================================================== *)

(** [os.environ], restricted to the variables the program reads.  The two
    integer variables are given after [int(...)]: a value that [int] refuses
    stops the import of the module, so no program runs. *)
Record Environ : Type := {
  env_BOT_TOKEN : option string;
  env_FRONTEND_BASE : option string;
  env_RESET_PATH : option string;
  env_RESET_EXPIRY_MINUTES : option Z;
  env_SMTP_HOST : option string;
  env_SMTP_PORT : option Z;
  env_SMTP_USER : option string;
  env_SMTP_PASS : option string;
  env_FROM_EMAIL : option string;
  env_DATABASE_URL : option string
}.

(** The module-level constants of lines 58-69. *)
Record Config : Type := {
  BOT_TOKEN : option string;
  FRONTEND_BASE : string;
  RESET_PATH : string;
  RESET_EXPIRY_MINUTES : Z;
  SMTP_HOST : option string;
  SMTP_PORT : Z;
  SMTP_USER : option string;
  SMTP_PASS : option string;
  FROM_EMAIL : option string;
  DATABASE_URL : option string
}.

(** [os.environ.get(name, default)] *)
Definition environ_get {A : Type} (v : option A) (default : A) : A :=
  match v with Some x => x | None => default end.

Definition load_config (e : Environ) : Config := {|
  BOT_TOKEN := env_BOT_TOKEN e;
  FRONTEND_BASE := environ_get (env_FRONTEND_BASE e) "http://localhost:8000";
  RESET_PATH := environ_get (env_RESET_PATH e) "/reset";
  RESET_EXPIRY_MINUTES := environ_get (env_RESET_EXPIRY_MINUTES e) 60;
  SMTP_HOST := env_SMTP_HOST e;
  SMTP_PORT := environ_get (env_SMTP_PORT e) 587;
  SMTP_USER := env_SMTP_USER e;
  SMTP_PASS := env_SMTP_PASS e;
  FROM_EMAIL :=
    match env_FROM_EMAIL e with Some x => Some x | None => env_SMTP_USER e end;
  DATABASE_URL := env_DATABASE_URL e
|}.

(* ===================================================================== *)
(** ** The world: table, trace, and the monad of handlers *)
(* ===================================================================== *)

(** A row of [reset_tokens].  [id] is [None] until the row is flushed. *)
Record ResetToken : Type := {
  id : option Z;
  email : string;
  token : string;
  created_at : datetime.t;
  expires_at : datetime.t;
  used : bool
}.

(** The [EmailMessage] built by [send_reset_email]. *)
Record EmailMessage : Type := {
  msg_Subject : string;
  msg_From : string;
  msg_To : string;
  msg_content : string
}.

(** Calls that reach outside the process, in program order. *)
Inductive event : Type :=
| SessionQuery (tok : string)        (* session.query(...).filter(token == tok).first() *)
| SessionAdd (r : ResetToken)        (* session.add(r) *)
| SessionCommit                      (* session.commit() *)
| SmtpConnect (host : string) (port : Z)   (* smtplib.SMTP(host, port) *)
| SmtpStartTls                       (* server.starttls(context=ctx) *)
| SmtpLogin (user pass : string)     (* server.login(user, pass) *)
| SmtpSendMessage (m : EmailMessage) (* server.send_message(msg) *)
| SmtpQuit                           (* leaving the [with] block *)
| ReplyText (text : string)          (* update.message.reply_text(text) *)
| AnswerCallback                     (* query.answer() *)
| EditMessageText (text : string).   (* query.edit_message_text(text) *)

Record World : Type := {
  table : list ResetToken;
  trace : list event
}.

Definition empty_world : World := {| table := []; trace := [] |}.

(** The exceptions the embedding distinguishes. *)
Inductive exn : Type :=
| IntegrityError            (* unique index on [token] *)
| OverflowError             (* datetime arithmetic *)
| RuntimeError (msg : string)
| ValueError                (* email header refused *)
| OSError                   (* connection to the relay *)
| SMTPException.            (* the relay refuses a command *)

Inductive result (A : Type) : Type :=
| Ok (a : A)
| Raise (e : exn).
Arguments Ok {A} a.
Arguments Raise {A} e.

(** A computation reads and changes the world, and returns or raises. *)
Definition M (A : Type) : Type := World -> result A * World.

Definition ret {A : Type} (a : A) : M A := fun w => (Ok a, w).

Definition raise {A : Type} (e : exn) : M A := fun w => (Raise e, w).

Definition bind {A B : Type} (m : M A) (k : A -> M B) : M B :=
  fun w =>
    match m w with
    | (Ok a, w') => k a w'
    | (Raise e, w') => (Raise e, w')
    end.

(** [try: m except Exception as e: h e] *)
Definition try_except {A : Type} (m : M A) (h : exn -> M A) : M A :=
  fun w =>
    match m w with
    | (Ok a, w') => (Ok a, w')
    | (Raise e, w') => h e w'
    end.

(** [m] run under [try], its outcome handed to the code after it. *)
Definition attempt {A : Type} (m : M A) : M (result A) :=
  fun w => match m w with (r, w') => (Ok r, w') end.

(** [with ... as server: body]: the exit code runs whether [body] returns or
    raises, is told which, and an exception of its own replaces the
    outcome of [body]. *)
Definition with_block {A : Type} (body : M A) (leave : bool -> M unit) : M A :=
  fun w =>
    match body w with
    | (r, w') =>
        match leave (match r with Ok _ => true | Raise _ => false end) w' with
        | (Ok _, w'') => (r, w'')
        | (Raise e, w'') => (Raise e, w'')
        end
    end.

Declare Scope py_scope.
Delimit Scope py_scope with py.
Notation "x <- m ;; k" := (bind m (fun x => k))
  (at level 61, m at next level, right associativity) : py_scope.
Notation "m ;; k" := (bind m (fun _ => k))
  (at level 61, right associativity) : py_scope.
Local Open Scope py_scope.

Definition emit (e : event) : M unit :=
  fun w => (Ok tt, {| table := table w; trace := trace w ++ [e] |}).

Definition value {A : Type} (r : result A * World) : result A := fst r.
Definition world {A : Type} (r : result A * World) : World := snd r.

(* ===================================================================== *)
(** ** DB helpers *)
(* ===================================================================== *)

(** [session.query(ResetToken).filter(ResetToken.token == token).first()],
    on the rows of the table. *)
Definition first_by_token (tok : string) (rows : list ResetToken)
  : option ResetToken :=
  find (fun r => String.eqb (token r) tok) rows.

Definition session_query_first (tok : string) : M (option ResetToken) :=
  fun w =>
    (Ok (first_by_token tok (table w)),
     {| table := table w; trace := trace w ++ [SessionQuery tok] |}).

Definition session_add (r : ResetToken) : M unit := emit (SessionAdd r).

(** The primary key the store gives the next row, as the sqlite file that
    the program falls back to numbers them: rows are never deleted, so the
    keys count up from 1.  (A server database draws the key from a sequence,
    which a refused INSERT advances too; nothing below rests on the value of
    a key other than that of the first row of an empty table.) *)
Definition next_id (rows : list ResetToken) : Z := Z.of_nat (List.length rows) + 1.

Definition with_id (i : Z) (r : ResetToken) : ResetToken :=
  {| id := Some i; email := email r; token := token r;
     created_at := created_at r; expires_at := expires_at r; used := used r |}.

(** [session.commit()] with the added row [r] pending: the INSERT is refused
    with [IntegrityError] when a row already carries that token ([unique=True]),
    and the table is then unchanged. *)
Definition session_commit_added (r : ResetToken) : M unit :=
  fun w =>
    let tr := trace w ++ [SessionCommit] in
    if existsb (fun x => String.eqb (token x) (token r)) (table w)
    then (Raise IntegrityError, {| table := table w; trace := tr |})
    else (Ok tt, {| table := table w ++ [with_id (next_id (table w)) r];
                    trace := tr |}).

Definition set_used_row (r : ResetToken) : ResetToken :=
  {| id := id r; email := email r; token := token r;
     created_at := created_at r; expires_at := expires_at r; used := true |}.

(** The table after [row.used = True] on the row that [first()] returned for
    [tok]. *)
Fixpoint set_used (tok : string) (rows : list ResetToken) : list ResetToken :=
  match rows with
  | [] => []
  | r :: rest =>
      if String.eqb (token r) tok then set_used_row r :: rest
      else r :: set_used tok rest
  end.

(** [row.used = True; session.commit()] *)
Definition session_commit_used (tok : string) : M unit :=
  fun w =>
    (Ok tt, {| table := set_used tok (table w);
               trace := trace w ++ [SessionCommit] |}).

(** [create_token(email)].  [rnd] is what [secrets.token_urlsafe(32)]
    returns and [clock] what [datetime.utcnow()] returns. *)
Definition create_token (cfg : Config) (email_arg : string)
    (rnd : string) (clock : datetime.t) : M string :=
  let token_v := rnd in
  let now := clock in
  match datetime.add_minutes now (RESET_EXPIRY_MINUTES cfg) with
  | None => raise OverflowError
  | Some expires =>
      let r := {| id := None;
                  email := Py.strip (Py.lower email_arg);
                  token := token_v;
                  created_at := now;
                  expires_at := expires;
                  used := false |} in
      session_add r ;;
      session_commit_added r ;;
      ret token_v
  end.

(** [get_token_row(token)] *)
Definition get_token_row (tok : string) : M (option ResetToken) :=
  row <- session_query_first tok ;;
  ret row.

(** [mark_used(token)] *)
Definition mark_used (tok : string) : M unit :=
  row <- session_query_first tok ;;
  match row with
  | Some _ => session_commit_used tok
  | None => ret tt
  end.

(* ===================================================================== *)
(** ** Email helper *)
(* ===================================================================== *)

(** What the mail libraries answer to each call of [send_reset_email]:
    [true] means the call raises.  The answer to building the headers is a
    function of the header values; the answers to the calls made inside the
    [with] block depend on whether STARTTLS went through, the answer to
    [send_message] on the message too, and the answer to QUIT on whether
    the block completed. *)
Record Relay : Type := {
  header_refused : string -> string -> bool;
    (* msg["From"] = v, msg["To"] = v' raises for a reason other than a
       line break in the value *)
  context_refused : bool;    (* ssl.create_default_context() raises *)
  connect_refused : bool;    (* smtplib.SMTP(host, port) raises *)
  starttls_refused : bool;   (* server.starttls raises *)
  login_refused : bool -> bool;                  (* server.login raises *)
  send_refused : bool -> EmailMessage -> bool;   (* server.send_message raises *)
  quit_refused : bool -> bool -> bool
    (* QUIT, sent on leaving the block, is not answered 221 *)
}.

Definition guard (refused : bool) (e : exn) : M unit :=
  if refused then raise e else ret tt.

(** Setting the headers of the message raises: the policy refuses a value
    with more than one line ([ValueError]), and the header factory may refuse
    a value for reasons of its own. *)
Definition headers_refused (relay : Relay) (msg : EmailMessage) : bool :=
  Py.several_lines (msg_From msg) || Py.several_lines (msg_To msg)
  || header_refused relay (msg_From msg) (msg_To msg).

Definition reset_link (cfg : Config) (tok : string) : string :=
  (Py.rstrip_char "/" (FRONTEND_BASE cfg) ++ RESET_PATH cfg
   ++ "?token=" ++ tok)%string.

Definition reset_message (cfg : Config) (to_email tok : string) : EmailMessage :=
  {| msg_Subject := "Password reset request";
     msg_From := Py.or_else (FROM_EMAIL cfg) "no-reply@example.com";
     msg_To := to_email;
     msg_content :=
       (Py.nl ++ "Hello," ++ Py.nl ++ Py.nl
        ++ "A password reset was requested for this account. If you requested it, open the link below to reset your password:"
        ++ Py.nl ++ Py.nl
        ++ reset_link cfg tok ++ Py.nl ++ Py.nl
        ++ "If you didn't request this, ignore this email." ++ Py.nl
        ++ "This link expires in " ++ Py.str_of_int (RESET_EXPIRY_MINUTES cfg)
        ++ " minutes." ++ Py.nl)%string |}.

(** [send_reset_email(to_email, token)] *)
Definition send_reset_email (cfg : Config) (relay : Relay)
    (to_email tok : string) : M unit :=
  let msg := reset_message cfg to_email tok in
  guard (headers_refused relay msg) ValueError ;;
  if negb (Py.truthy_opt (SMTP_HOST cfg)) || negb (Py.truthy_opt (FROM_EMAIL cfg))
  then raise (RuntimeError
    "SMTP not configured. Set SMTP_HOST, SMTP_USER, SMTP_PASS, FROM_EMAIL in env.")
  else
    guard (context_refused relay) OSError ;;
    emit (SmtpConnect (environ_get (SMTP_HOST cfg) "") (SMTP_PORT cfg)) ;;
    guard (connect_refused relay) OSError ;;
    let tls := negb (starttls_refused relay) in
    with_block
      (try_except
         (emit SmtpStartTls ;; guard (starttls_refused relay) SMTPException)
         (fun _ => ret tt) ;;
       (if Py.truthy_opt (SMTP_USER cfg) && Py.truthy_opt (SMTP_PASS cfg)
        then emit (SmtpLogin (environ_get (SMTP_USER cfg) "")
                             (environ_get (SMTP_PASS cfg) "")) ;;
             guard (login_refused relay tls) SMTPException
        else ret tt) ;;
       emit (SmtpSendMessage msg) ;;
       guard (send_refused relay tls msg) SMTPException)
      (fun completed =>
         emit SmtpQuit ;;
         guard (quit_refused relay tls completed) SMTPException).

(* ===================================================================== *)
(** ** Flask web part (reset page) *)
(* ===================================================================== *)

(** The parts of a request the handlers read: the query string
    ([request.args]) and the form body ([request.form]). *)
Record Request : Type := {
  args : list (string * string);
  form : list (string * string)
}.

(** [d.get(key, default)] on a [MultiDict]: the first value of [key]. *)
Fixpoint multidict_get (d : list (string * string)) (key default : string)
  : string :=
  match d with
  | [] => default
  | (k, v) :: d' => if String.eqb k key then v else multidict_get d' key default
  end.

(** What a handler returns: [HTML_FORM] rendered with its three variables
    (status 200), or a body with a status. *)
Inductive Response : Type :=
| Rendered (message : option string) (show_form : bool) (form_email : option string)
| Body (text : string) (status : Z).

(** [get_reset()] *)
Definition get_reset (req : Request) (clock : datetime.t) : M Response :=
  let tok := multidict_get (args req) "token" "" in
  if negb (Py.truthy tok) then
    ret (Rendered (Some "Missing token.") false None)
  else
    row <- get_token_row tok ;;
    match row with
    | None => ret (Rendered (Some "Invalid token.") false None)
    | Some row =>
        if used row then
          ret (Rendered (Some "This link has already been used.") false None)
        else if datetime.lt (expires_at row) clock then
          ret (Rendered (Some "This link has expired.") false None)
        else
          ret (Rendered None true (Some (email row)))
    end.

Definition updated_body : string :=
  "Password updated (demo). Connect this endpoint to your user DB to actually change passwords.".

(** [post_reset()] *)
Definition post_reset (req : Request) (clock : datetime.t) : M Response :=
  let tok := multidict_get (args req) "token" "" in
  let password := multidict_get (form req) "password" "" in
  if negb (Py.truthy tok) || negb (Py.truthy password) then
    ret (Body "Missing token or password" 400)
  else
    row <- get_token_row tok ;;
    if match row with
       | None => true
       | Some row => used row || datetime.lt (expires_at row) clock
       end
    then ret (Body "Invalid or expired token" 400)
    else
      mark_used tok ;;
      ret (Body updated_body 200).

(* ===================================================================== *)
(** ** Telegram bot part *)
(* ===================================================================== *)

(** What a conversation callback returns: [ASK_EMAIL] or
    [ConversationHandler.END]. *)
Inductive conversation : Type :=
| ASK_EMAIL
| END.

Definition not_at_or_space : Re.atom := Re.NotIn [Re.SetChar "@"; Re.SetSpace].

(** [EMAIL_RE = re.compile(r"[^@\s]+@[^@\s]+\.[^@\s]+")] *)
Definition EMAIL_RE : Re.pattern :=
  [Re.Plus not_at_or_space; Re.Once (Re.Literal "@");
   Re.Plus not_at_or_space; Re.Once (Re.Literal ".");
   Re.Plus not_at_or_space].

(** [valid_email(email)] *)
Definition valid_email (email_arg : string) : bool :=
  match Re.re_match EMAIL_RE email_arg with
  | Some _ => true
  | None => false
  end.

Definition reply_text (text : string) : M unit := emit (ReplyText text).

Definition ask_text : string :=
  "Please reply with the **email** you want to reset (example: you@domain.com).".

(** [reset_command] *)
Definition reset_command : M conversation :=
  reply_text ask_text ;;
  ret ASK_EMAIL.

(** [cancel] *)
Definition cancel : M conversation :=
  reply_text "Cancelled." ;;
  ret END.

(** [receive_email].  [text] is [update.message.text]; [rnd] and [clock] are
    what [create_token] draws. *)
Definition receive_email (cfg : Config) (relay : Relay) (text : string)
    (rnd : string) (clock : datetime.t) : M conversation :=
  let user_text := Py.strip text in
  if negb (valid_email user_text) then
    reply_text "That doesn't look like a valid email. Please try again." ;;
    ret ASK_EMAIL
  else
    tok <- create_token cfg user_text rnd clock ;;
    sent <- attempt (send_reset_email cfg relay user_text tok) ;;
    match sent with
    | Raise _ =>
        reply_text "Failed to send email. Check SMTP settings in environment variables." ;;
        ret END
    | Ok _ =>
        reply_text ("Reset link sent to " ++ user_text ++ ". Check your email.")%string ;;
        ret END
    end.

(** [start]: the welcome message carries the inline "Reset Password"
    button. *)
Definition start : M unit :=
  reply_text "Welcome! Choose an option:".

(** [button_callback]; [data] is [query.data]. *)
Definition button_callback (data : string) : M unit :=
  emit AnswerCallback ;;
  if String.eqb data "reset" then emit (EditMessageText ask_text) else ret tt.

(* ===================================================================== *)
(** ** Runs of the system *)
(* ===================================================================== *)

(** One request to the web service, one update to the bot, or one direct
    call of a DB helper, with what it draws from the outside world. *)
Inductive action : Type :=
| GetReset (req : Request) (clock : datetime.t)
| PostReset (req : Request) (clock : datetime.t)
| ReceiveEmail (relay : Relay) (text rnd : string) (clock : datetime.t)
| ResetCommand
| Cancel
| Start
| ButtonCallback (data : string)
| CreateToken (email_arg rnd : string) (clock : datetime.t)
| GetTokenRow (tok : string)
| MarkUsed (tok : string).

(** The world after one action; an exception ends the action, not the
    process. *)
Definition perform (cfg : Config) (a : action) (w : World) : World :=
  match a with
  | GetReset req clock => world (get_reset req clock w)
  | PostReset req clock => world (post_reset req clock w)
  | ReceiveEmail relay text rnd clock =>
      world (receive_email cfg relay text rnd clock w)
  | ResetCommand => world (reset_command w)
  | Cancel => world (cancel w)
  | Start => world (start w)
  | ButtonCallback data => world (button_callback data w)
  | CreateToken email_arg rnd clock => world (create_token cfg email_arg rnd clock w)
  | GetTokenRow tok => world (get_token_row tok w)
  | MarkUsed tok => world (mark_used tok w)
  end.

(** The world after a sequence of actions, first to last. *)
Definition run (cfg : Config) (acts : list action) (w : World) : World :=
  fold_left (fun w a => perform cfg a w) acts w.

(** The request [<RESET_PATH>?token=tok] with form field [password]. *)
Definition request_of (tok password : string) : Request :=
  {| args := [("token", tok)]; form := [("password", password)] |}.


(* ===================================================================== *)
(** ** Vocabulary of the statements *)
(* ===================================================================== *)

(** The strings a pattern denotes: what [match_at] searches a prefix for. *)
Inductive denotes : Re.pattern -> string -> Prop :=
| denotes_nil : denotes [] EmptyString
| denotes_once (a : Re.atom) (c : ascii) (p : Re.pattern) (s : string) :
    Re.atom_matches a c = true -> denotes p s ->
    denotes (Re.Once a :: p) (String c s)
| denotes_plus_last (a : Re.atom) (c : ascii) (p : Re.pattern) (s : string) :
    Re.atom_matches a c = true -> denotes p s ->
    denotes (Re.Plus a :: p) (String c s)
| denotes_plus_more (a : Re.atom) (c : ascii) (p : Re.pattern) (s : string) :
    Re.atom_matches a c = true -> denotes (Re.Plus a :: p) s ->
    denotes (Re.Plus a :: p) (String c s).

(** Every character of [s] satisfies [P]. *)
Fixpoint all_chars (P : ascii -> bool) (s : string) : bool :=
  match s with
  | EmptyString => true
  | String c s' => P c && all_chars P s'
  end.

(** A character of an address part: neither [@] nor white space. *)
Definition part_char (c : ascii) : bool :=
  negb (Ascii.eqb c "@") && negb (Py.isspace c).

(** A non-empty run of such characters. *)
Definition address_part (s : string) : Prop :=
  s <> EmptyString /\ all_chars part_char s = true.

(** A character that [str.lower] leaves alone. *)
Definition lower_fixed (c : ascii) : bool := Ascii.eqb (Py.lower_char c) c.

(** [e] is the normal form of [s]: [s] lower-cased, without the white space
    around it. *)
Definition normal_form_of (s e : string) : Prop :=
  (exists pre post,
     Py.lower s = (pre ++ e ++ post)%string /\
     all_chars Py.isspace pre = true /\ all_chars Py.isspace post = true) /\
  Py.lstrip e = e /\ Py.rstrip e = e /\ Py.lower e = e.

(** [r'] is [r] with, at most, [used] raised from false to true. *)
Definition row_le (r r' : ResetToken) : Prop :=
  id r' = id r /\ email r' = email r /\ token r' = token r /\
  created_at r' = created_at r /\ expires_at r' = expires_at r /\
  (used r = true -> used r' = true).

(** [rows'] keeps every row of [rows] in place, up to [row_le], and may have
    more rows after them. *)
Definition evolves (rows rows' : list ResetToken) : Prop :=
  exists kept added, rows' = kept ++ added /\ Forall2 row_le rows kept.

(** The constraints the rows of the table satisfy: [token] is unique
    (the column's unique index) and never empty (it is drawn by
    [secrets.token_urlsafe(32)]). *)
Definition store_ok (rows : list ResetToken) : Prop :=
  NoDup (map token rows) /\ Forall (fun r => Py.truthy (token r) = true) rows.

(** The random source gives non-empty tokens. *)
Definition action_ok (a : action) : Prop :=
  match a with
  | ReceiveEmail _ _ rnd _ => Py.truthy rnd = true
  | CreateToken _ rnd _ => Py.truthy rnd = true
  | _ => True
  end.

(** The replies sent to the chat among the events [evs]. *)
Fixpoint replies (evs : list event) : list string :=
  match evs with
  | [] => []
  | ReplyText text :: evs' => text :: replies evs'
  | _ :: evs' => replies evs'
  end.

(** The number of connections opened to the relay among [evs]. *)
Fixpoint connections (evs : list event) : nat :=
  match evs with
  | [] => O
  | SmtpConnect _ _ :: evs' => S (connections evs')
  | _ :: evs' => connections evs'
  end.

(** The number of session calls (query, add, commit) among [evs]. *)
Fixpoint session_calls (evs : list event) : nat :=
  match evs with
  | [] => O
  | SessionQuery _ :: evs' => S (session_calls evs')
  | SessionAdd _ :: evs' => S (session_calls evs')
  | SessionCommit :: evs' => S (session_calls evs')
  | _ :: evs' => session_calls evs'
  end.

(** The world with [evs] appended to its trace. *)
Definition logged (w : World) (evs : list event) : World :=
  {| table := table w; trace := trace w ++ evs |}.

(** [tok] is the token parameter of the request. *)
Definition presents (req : Request) (tok : string) : Prop :=
  multidict_get (args req) "token" "" = tok.

(** The form field [password] of the request is present and not empty. *)
Definition has_password (req : Request) : Prop :=
  Py.truthy (multidict_get (form req) "password" "") = true.

(** The stored record [r] is redeemable in world [w] at time [clock]: a GET
    with its token renders the password form for its email, and a POST with
    a non-empty password succeeds and leaves the record used. *)
Definition redeemable (w : World) (r : ResetToken) (clock : datetime.t) : Prop :=
  forall req, presents req (token r) ->
    value (get_reset req clock w) = Ok (Rendered None true (Some (email r))) /\
    (has_password req ->
     value (post_reset req clock w) = Ok (Body updated_body 200) /\
     first_by_token (token r) (table (world (post_reset req clock w)))
       = Some (set_used_row r)).

(** Both paths reject the stored record's token: the GET renders a message
    and no form, the POST answers 400, and the table is left as it was. *)
Definition rejected (w : World) (r : ResetToken) (clock : datetime.t) : Prop :=
  forall req, presents req (token r) ->
    (exists msg, value (get_reset req clock w) = Ok (Rendered (Some msg) false None)) /\
    (exists body, value (post_reset req clock w) = Ok (Body body 400)) /\
    table (world (post_reset req clock w)) = table w.

(** A configuration with every variable unset, and one with a relay. *)
Definition no_environ : Environ :=
  {| env_BOT_TOKEN := None; env_FRONTEND_BASE := None; env_RESET_PATH := None;
     env_RESET_EXPIRY_MINUTES := None; env_SMTP_HOST := None;
     env_SMTP_PORT := None; env_SMTP_USER := None; env_SMTP_PASS := None;
     env_FROM_EMAIL := None; env_DATABASE_URL := None |}.

Definition default_config : Config := load_config no_environ.

Definition willing_relay : Relay :=
  {| header_refused := fun _ _ => false; context_refused := false;
     connect_refused := false; starttls_refused := false;
     login_refused := fun _ => false; send_refused := fun _ _ => false;
     quit_refused := fun _ _ => false |}.

(** The key [key] has no value in [d], or its first value is empty. *)
Definition absent_or_empty (d : list (string * string)) (key : string) : Prop :=
  (forall v, ~ In (key, v) d) \/ multidict_get d key "" = "".

(** No character of [s] is white space. *)
Definition no_space (s : string) : bool :=
  all_chars (fun c => negb (Py.isspace c)) s.

(** The world after one token was issued at time 0 under the default
    configuration, and the row it holds. *)
Definition issued_world : World :=
  world (create_token default_config "user@example.com" "tok123" 0 empty_world).

Definition issued_row : ResetToken :=
  {| id := Some 1; email := "user@example.com"; token := "tok123";
     created_at := 0; expires_at := 3600000000; used := false |}.

(** The messages handed to [server.send_message] among [evs]. *)
Fixpoint sent_messages (evs : list event) : list EmailMessage :=
  match evs with
  | [] => []
  | SmtpSendMessage m :: evs' => m :: sent_messages evs'
  | _ :: evs' => sent_messages evs'
  end.

(** The credentials are both set, so [send_reset_email] logs in. *)
Definition has_credentials (cfg : Config) : bool :=
  Py.truthy_opt (SMTP_USER cfg) && Py.truthy_opt (SMTP_PASS cfg).

(** STARTTLS went through. *)
Definition tls_up (relay : Relay) : bool := negb (starttls_refused relay).

(** [send_reset_email] gets as far as the [with] block: the headers are
    accepted, host and sender are configured, the TLS context is made and
    the connection opened. *)
Definition reaches_relay (cfg : Config) (relay : Relay) (to_email tok : string)
  : bool :=
  negb (headers_refused relay (reset_message cfg to_email tok))
  && Py.truthy_opt (SMTP_HOST cfg) && Py.truthy_opt (FROM_EMAIL cfg)
  && negb (context_refused relay) && negb (connect_refused relay).

(** [send_reset_email] gets to the relay and none of the calls it lets fail
    is refused: the login if there is one, the message, and QUIT; STARTTLS is
    not among them. *)
Definition delivers (cfg : Config) (relay : Relay) (to_email tok : string)
  : bool :=
  reaches_relay cfg relay to_email tok
  && (negb (has_credentials cfg) || negb (login_refused relay (tls_up relay)))
  && negb (send_refused relay (tls_up relay) (reset_message cfg to_email tok))
  && negb (quit_refused relay (tls_up relay) true).

(** The SMTP calls of a delivery that goes through. *)
Definition delivery_events (cfg : Config) (to_email tok : string) : list event :=
  [SmtpConnect (environ_get (SMTP_HOST cfg) "") (SMTP_PORT cfg); SmtpStartTls]
  ++ (if has_credentials cfg
      then [SmtpLogin (environ_get (SMTP_USER cfg) "")
                      (environ_get (SMTP_PASS cfg) "")]
      else [])
  ++ [SmtpSendMessage (reset_message cfg to_email tok); SmtpQuit].

(** The number of logins among [evs]. *)
Fixpoint logins (evs : list event) : nat :=
  match evs with
  | [] => O
  | SmtpLogin _ _ :: evs' => S (logins evs')
  | _ :: evs' => logins evs'
  end.

(** The event is a call to the relay. *)
Definition is_smtp (e : event) : bool :=
  match e with
  | SmtpConnect _ _ | SmtpStartTls | SmtpLogin _ _ | SmtpSendMessage _
  | SmtpQuit => true
  | _ => false
  end.

(** A relay that takes the connection and the login and refuses every
    message. *)
Definition refusing_relay : Relay :=
  {| header_refused := fun _ _ => false; context_refused := false;
     connect_refused := false; starttls_refused := false;
     login_refused := fun _ => false; send_refused := fun _ _ => true;
     quit_refused := fun _ _ => false |}.

(** White space and capital letters, by code point: the characters that
    [strip] removes, and the ones that [lower] changes. *)
Definition is_white (c : ascii) : bool :=
  existsb (N.eqb (N_of_ascii c)) [9; 10; 11; 12; 13; 28; 29; 30; 31; 32; 133; 160]%N.

Definition is_capital (c : ascii) : bool :=
  let n := N_of_ascii c in
  (((65 <=? n) && (n <=? 90)) || ((192 <=? n) && (n <=? 214))
   || ((216 <=? n) && (n <=? 222)))%N.

(** [d] is [c] in lower case: the character 32 code points up for a capital
    letter, [c] itself otherwise. *)
Definition lower_case_of (c d : ascii) : bool :=
  if is_capital c then (N_of_ascii d =? N_of_ascii c + 32)%N else Ascii.eqb d c.

(** [e] is [s] in lower case, character by character. *)
Fixpoint lower_cased (s e : string) : bool :=
  match s, e with
  | EmptyString, EmptyString => true
  | String c s', String d e' => lower_case_of c d && lower_cased s' e'
  | _, _ => false
  end.

(** The first and the last character of a string. *)
Definition first_char (s : string) : option ascii :=
  match s with EmptyString => None | String c _ => Some c end.

Fixpoint last_char (s : string) : option ascii :=
  match s with
  | EmptyString => None
  | String c EmptyString => Some c
  | String _ s' => last_char s'
  end.

(** [e] is [s] lower-cased and trimmed, said without [lower] and [strip]:
    [s] is white space, then the characters of which [e] is the lower case,
    then white space; [e] has no capital letter, and neither begins nor ends
    with white space. *)
Definition normalised_from (s e : string) : Prop :=
  (exists pre mid post,
     s = (pre ++ mid ++ post)%string /\
     all_chars is_white pre = true /\ all_chars is_white post = true /\
     lower_cased mid e = true) /\
  all_chars (fun c => negb (is_capital c)) e = true /\
  (forall c, first_char e = Some c -> is_white c = false) /\
  (forall c, last_char e = Some c -> is_white c = false).

(** [cfg] with another [FRONTEND_BASE]. *)
Definition set_frontend_base (b : string) (cfg : Config) : Config :=
  {| BOT_TOKEN := BOT_TOKEN cfg; FRONTEND_BASE := b;
     RESET_PATH := RESET_PATH cfg;
     RESET_EXPIRY_MINUTES := RESET_EXPIRY_MINUTES cfg;
     SMTP_HOST := SMTP_HOST cfg; SMTP_PORT := SMTP_PORT cfg;
     SMTP_USER := SMTP_USER cfg; SMTP_PASS := SMTP_PASS cfg;
     FROM_EMAIL := FROM_EMAIL cfg; DATABASE_URL := DATABASE_URL cfg |}.

(** The actions that are bot commands or button presses. *)
Definition is_command (a : action) : Prop :=
  match a with
  | ResetCommand | Cancel | Start | ButtonCallback _ => True
  | _ => False
  end.

(** An environment with a relay and credentials, and its configuration. *)
Definition mail_environ : Environ :=
  {| env_BOT_TOKEN := Some "bot"; env_FRONTEND_BASE := Some "https://app.example.com/";
     env_RESET_PATH := None; env_RESET_EXPIRY_MINUTES := None;
     env_SMTP_HOST := Some "smtp.example.com"; env_SMTP_PORT := None;
     env_SMTP_USER := Some "mailer@example.com"; env_SMTP_PASS := Some "secret";
     env_FROM_EMAIL := None; env_DATABASE_URL := None |}.

Definition mail_config : Config := load_config mail_environ.

(** The action draws [tok] from the random source. *)
Definition draws (a : action) (tok : string) : Prop :=
  match a with
  | ReceiveEmail _ _ rnd _ => rnd = tok
  | CreateToken _ rnd _ => rnd = tok
  | _ => False
  end.

(* ===================================================================== *)
(** ** Facts about the pattern matcher *)
(* ===================================================================== *)

Section Matcher.

Local Open Scope string_scope.

Lemma match_plus_sound (a : Re.atom) (k : string -> option nat) (p : Re.pattern) :
  (forall s n, k s = Some n ->
     exists u rest, s = u ++ rest /\ String.length u = n /\ denotes p u) ->
  forall s n, Re.match_plus a k s = Some n ->
    exists u rest, s = u ++ rest /\ String.length u = n /\
                   denotes (Re.Plus a :: p) u.
Proof.
  intros Hk s. induction s as [|c s IH]; intros n H; simpl in H.
  - discriminate.
  - destruct (Re.atom_matches a c) eqn:Hc; [|discriminate].
    destruct (Re.match_plus a k s) as [m|] eqn:Hm.
    + injection H as <-.
      destruct (IH m eq_refl) as (u & rest & -> & <- & D).
      exists (String c u), rest. repeat split.
      now apply denotes_plus_more.
    + destruct (k s) as [m|] eqn:Hks; simpl in H; [|discriminate].
      injection H as <-.
      destruct (Hk s m Hks) as (u & rest & -> & <- & D).
      exists (String c u), rest. repeat split.
      now apply denotes_plus_last.
Qed.

Lemma match_at_sound (p : Re.pattern) :
  forall s n, Re.match_at p s = Some n ->
    exists u rest, s = u ++ rest /\ String.length u = n /\ denotes p u.
Proof.
  induction p as [|[a|a] p IH]; intros s n H; simpl in H.
  - injection H as <-. exists EmptyString, s. repeat split. constructor.
  - destruct s as [|c s]; [discriminate|].
    destruct (Re.atom_matches a c) eqn:Hc; [|discriminate].
    destruct (Re.match_at p s) as [m|] eqn:Hm; simpl in H; [|discriminate].
    injection H as <-.
    destruct (IH s m Hm) as (u & rest & -> & <- & D).
    exists (String c u), rest. repeat split. now constructor.
  - eapply match_plus_sound; eauto.
Qed.

Lemma match_at_complete (p : Re.pattern) (u : string) :
  denotes p u -> forall rest, Re.match_at p (u ++ rest) <> None.
Proof.
  induction 1 as [|a c p s Hc D IH|a c p s Hc D IH|a c p s Hc D IH];
    intros rest; simpl.
  - discriminate.
  - rewrite Hc. specialize (IH rest).
    destruct (Re.match_at p (s ++ rest)); [discriminate|congruence].
  - rewrite Hc. specialize (IH rest).
    destruct (Re.match_plus a (Re.match_at p) (s ++ rest)); [discriminate|].
    destruct (Re.match_at p (s ++ rest)); [discriminate|congruence].
  - rewrite Hc. specialize (IH rest). simpl in IH.
    destruct (Re.match_plus a (Re.match_at p) (s ++ rest)); [discriminate|congruence].
Qed.

(** [valid_email] accepts exactly the strings that start with a string the
    pattern denotes. *)
Lemma valid_email_iff (s : string) :
  valid_email s = true <->
  exists u rest, s = u ++ rest /\ denotes EMAIL_RE u.
Proof.
  unfold valid_email, Re.re_match. split.
  - destruct (Re.match_at EMAIL_RE s) as [n|] eqn:H; [|discriminate].
    intros _. destruct (match_at_sound _ _ _ H) as (u & rest & ? & _ & ?).
    eauto.
  - intros (u & rest & -> & D).
    pose proof (match_at_complete _ _ D rest) as H.
    destruct (Re.match_at EMAIL_RE (u ++ rest)); congruence.
Qed.

Lemma append_assoc (a b c : string) : (a ++ b) ++ c = a ++ (b ++ c).
Proof. induction a as [|x a IH]; simpl; [reflexivity|now rewrite IH]. Qed.

Lemma append_nil_r (a : string) : a ++ "" = a.
Proof. induction a as [|x a IH]; simpl; [reflexivity|now rewrite IH]. Qed.

(** Text after an accepted string never makes it refused. *)
Lemma valid_email_append (s t : string) :
  valid_email s = true -> valid_email (s ++ t) = true.
Proof.
  rewrite !valid_email_iff. intros (u & rest & -> & D).
  exists u, (rest ++ t). split; [apply append_assoc|assumption].
Qed.

(** The strings of [a+ p]: a non-empty run of [a], then a string of [p]. *)
Lemma denotes_plus_inv (a : Re.atom) (p : Re.pattern) (u : string) :
  denotes (Re.Plus a :: p) u ->
  exists x y, u = x ++ y /\ x <> "" /\
              all_chars (Re.atom_matches a) x = true /\ denotes p y.
Proof.
  remember (Re.Plus a :: p) as q eqn:Hq. intros D.
  induction D as [|a' c p' s Hc D IH|a' c p' s Hc D IH|a' c p' s Hc D IH];
    try discriminate; injection Hq as -> ->.
  - exists (String c ""), s. simpl. rewrite Hc. repeat split; [discriminate|assumption].
  - destruct (IH eq_refl) as (x & y & -> & _ & Hx & Dy).
    exists (String c x), y. simpl. rewrite Hc, Hx.
    repeat split; [discriminate|assumption].
Qed.

Lemma denotes_plus_intro (a : Re.atom) (p : Re.pattern) (x y : string) :
  x <> "" -> all_chars (Re.atom_matches a) x = true -> denotes p y ->
  denotes (Re.Plus a :: p) (x ++ y).
Proof.
  intros Hne Hx Dy. induction x as [|c x IH]; [congruence|].
  simpl in Hx. apply andb_true_iff in Hx as [Hc Hx]. simpl.
  destruct x as [|c' x].
  - simpl. now apply denotes_plus_last.
  - apply denotes_plus_more; [assumption|]. apply IH; [discriminate|assumption].
Qed.

Lemma denotes_once_inv (a : Re.atom) (p : Re.pattern) (u : string) :
  denotes (Re.Once a :: p) u ->
  exists c y, u = String c y /\ Re.atom_matches a c = true /\ denotes p y.
Proof. inversion 1; subst; eauto. Qed.

Lemma denotes_nil_inv (u : string) : denotes [] u -> u = "".
Proof. now inversion 1. Qed.

Lemma not_at_or_space_char (c : ascii) :
  Re.atom_matches not_at_or_space c = part_char c.
Proof.
  unfold part_char. simpl. rewrite orb_false_r.
  now destruct (Ascii.eqb c "@"), (Py.isspace c).
Qed.

Lemma all_chars_ext (P Q : ascii -> bool) (s : string) :
  (forall c, P c = Q c) -> all_chars P s = all_chars Q s.
Proof. intros E. induction s as [|c s IH]; simpl; [reflexivity|now rewrite E, IH]. Qed.

(** What [EMAIL_RE] denotes: [local@domain.tld], each part a non-empty run
    of characters that are neither [@] nor white space. *)
Lemma denotes_EMAIL_RE (u : string) :
  denotes EMAIL_RE u <->
  exists l d t, u = l ++ "@" ++ d ++ "." ++ t /\
                address_part l /\ address_part d /\ address_part t.
Proof.
  unfold EMAIL_RE, address_part. split.
  - intros D.
    apply denotes_plus_inv in D as (l & y & -> & Hl & Al & D).
    apply denotes_once_inv in D as (c1 & y1 & -> & Hc1 & D).
    apply denotes_plus_inv in D as (d & y2 & -> & Hd & Ad & D).
    apply denotes_once_inv in D as (c2 & y3 & -> & Hc2 & D).
    apply denotes_plus_inv in D as (t & y4 & -> & Ht & At & D).
    apply denotes_nil_inv in D as ->.
    simpl in Hc1, Hc2. apply Ascii.eqb_eq in Hc1 as ->. apply Ascii.eqb_eq in Hc2 as ->.
    rewrite (all_chars_ext _ _ l not_at_or_space_char) in Al.
    rewrite (all_chars_ext _ _ d not_at_or_space_char) in Ad.
    rewrite (all_chars_ext _ _ t not_at_or_space_char) in At.
    exists l, d, t. rewrite append_nil_r. simpl. auto 10.
  - intros (l & d & t & -> & [Hl Al] & [Hd Ad] & [Ht At]).
    rewrite <- (all_chars_ext _ _ l not_at_or_space_char) in Al.
    rewrite <- (all_chars_ext _ _ d not_at_or_space_char) in Ad.
    rewrite <- (all_chars_ext _ _ t not_at_or_space_char) in At.
    apply denotes_plus_intro; [assumption..|].
    simpl. apply denotes_once; [reflexivity|].
    apply denotes_plus_intro; [assumption..|].
    simpl. apply denotes_once; [reflexivity|].
    rewrite <- (append_nil_r t).
    apply denotes_plus_intro; [assumption..|]. constructor.
Qed.

End Matcher.

(* ===================================================================== *)
(** ** Facts about [lower] and [strip] *)
(* ===================================================================== *)

Section Strings.

Local Open Scope string_scope.

Lemma lower_char_idem (c : ascii) : Py.lower_char (Py.lower_char c) = Py.lower_char c.
Proof. destruct c as [[] [] [] [] [] [] [] []]; reflexivity. Qed.

Lemma lower_all_fixed (s : string) : all_chars lower_fixed (Py.lower s) = true.
Proof.
  induction s as [|c s IH]; simpl; [reflexivity|].
  rewrite IH, andb_true_r. unfold lower_fixed.
  rewrite lower_char_idem. apply Ascii.eqb_refl.
Qed.

Lemma lower_of_fixed (s : string) :
  all_chars lower_fixed s = true -> Py.lower s = s.
Proof.
  induction s as [|c s IH]; simpl; [reflexivity|].
  intros H. apply andb_true_iff in H as [Hc Hs].
  apply Ascii.eqb_eq in Hc. now rewrite Hc, IH.
Qed.

Lemma lstrip_all (P : ascii -> bool) (s : string) :
  all_chars P s = true -> all_chars P (Py.lstrip s) = true.
Proof.
  induction s as [|c s IH]; simpl; [reflexivity|].
  intros H. destruct (Py.isspace c); [|exact H].
  apply andb_true_iff in H as [_ H]. auto.
Qed.

Lemma rstrip_all (P : ascii -> bool) (s : string) :
  all_chars P s = true -> all_chars P (Py.rstrip s) = true.
Proof.
  induction s as [|c s IH]; simpl; [reflexivity|].
  intros H. apply andb_true_iff in H as [Hc Hs]. specialize (IH Hs).
  destruct (Py.rstrip s) as [|d r].
  - destruct (Py.isspace c); simpl; [reflexivity|now rewrite Hc].
  - simpl in *. now rewrite Hc.
Qed.

Lemma rstrip_idem (s : string) : Py.rstrip (Py.rstrip s) = Py.rstrip s.
Proof.
  induction s as [|c s IH]; simpl; [reflexivity|].
  destruct (Py.rstrip s) as [|d r] eqn:E.
  - destruct (Py.isspace c) eqn:Hc; simpl; [reflexivity|now rewrite Hc].
  - change (Py.rstrip (String c (String d r))) with
      (match Py.rstrip (String d r) with
       | "" => if Py.isspace c then "" else String c ""
       | r0 => String c r0
       end).
    now rewrite IH.
Qed.

Lemma lstrip_head (s : string) :
  Py.lstrip s = "" \/
  exists c x, Py.lstrip s = String c x /\ Py.isspace c = false.
Proof.
  induction s as [|c s IH]; simpl; [now left|].
  destruct (Py.isspace c) eqn:Hc; [exact IH|]. right. eauto.
Qed.

Lemma lstrip_rstrip_head (c : ascii) (x : string) :
  Py.isspace c = false -> Py.lstrip (Py.rstrip (String c x)) = Py.rstrip (String c x).
Proof.
  intros Hc. simpl. destruct (Py.rstrip x); simpl; rewrite ?Hc; simpl; now rewrite ?Hc.
Qed.

Lemma lstrip_strip (s : string) : Py.lstrip (Py.strip s) = Py.strip s.
Proof.
  unfold Py.strip. destruct (lstrip_head s) as [E|(c & x & E & Hc)]; rewrite E.
  - reflexivity.
  - now apply lstrip_rstrip_head.
Qed.

Lemma rstrip_strip (s : string) : Py.rstrip (Py.strip s) = Py.strip s.
Proof. apply rstrip_idem. Qed.

Lemma strip_idem (s : string) : Py.strip (Py.strip s) = Py.strip s.
Proof. unfold Py.strip at 1. rewrite lstrip_strip. apply rstrip_strip. Qed.

Lemma lstrip_split (s : string) :
  exists pre, s = pre ++ Py.lstrip s /\ all_chars Py.isspace pre = true.
Proof.
  induction s as [|c s (pre & E & H)]; simpl.
  - now exists "".
  - destruct (Py.isspace c) eqn:Hc.
    + exists (String c pre). simpl. now rewrite Hc, H, <- E.
    + now exists "".
Qed.

Lemma rstrip_split (s : string) :
  exists post, s = Py.rstrip s ++ post /\ all_chars Py.isspace post = true.
Proof.
  induction s as [|c s (post & E & H)]; simpl.
  - now exists "".
  - destruct (Py.rstrip s) as [|d r].
    + destruct (Py.isspace c) eqn:Hc.
      * exists (String c post). simpl in *. subst s. now rewrite Hc, H.
      * exists post. simpl in *. now subst s.
    + exists post. simpl in *. now rewrite <- E.
Qed.

Lemma strip_split (s : string) :
  exists pre post, s = pre ++ Py.strip s ++ post /\
    all_chars Py.isspace pre = true /\ all_chars Py.isspace post = true.
Proof.
  destruct (lstrip_split s) as (pre & E & Hpre).
  destruct (rstrip_split (Py.lstrip s)) as (post & E' & Hpost).
  exists pre, post. unfold Py.strip. now rewrite <- E', <- E.
Qed.

(** [email.lower().strip()] is the normal form of [email]. *)
Lemma strip_lower_normal (s : string) : normal_form_of s (Py.strip (Py.lower s)).
Proof.
  unfold normal_form_of. split; [apply strip_split|].
  split; [apply lstrip_strip|]. split; [apply rstrip_strip|].
  apply lower_of_fixed. unfold Py.strip.
  apply rstrip_all, lstrip_all, lower_all_fixed.
Qed.

End Strings.

(* ===================================================================== *)
(** ** Facts about the table *)
(* ===================================================================== *)

Section Table.

Implicit Types (rows : list ResetToken) (r : ResetToken) (tok : string).

Lemma first_by_token_app tok rows rows' :
  first_by_token tok (rows ++ rows') =
  match first_by_token tok rows with
  | Some r => Some r
  | None => first_by_token tok rows'
  end.
Proof.
  unfold first_by_token. induction rows as [|r rows IH]; simpl; [reflexivity|].
  now destruct (String.eqb (token r) tok).
Qed.

Lemma first_by_token_some tok rows r :
  first_by_token tok rows = Some r -> In r rows /\ token r = tok.
Proof.
  unfold first_by_token. intros H. apply find_some in H as [Hin He].
  now apply String.eqb_eq in He.
Qed.

Lemma first_by_token_none tok rows :
  first_by_token tok rows = None <->
  existsb (fun x => String.eqb (token x) tok) rows = false.
Proof.
  unfold first_by_token. induction rows as [|r rows IH]; simpl; [tauto|].
  destruct (String.eqb (token r) tok); simpl; [split; discriminate|exact IH].
Qed.

Lemma first_by_token_not_in tok rows :
  first_by_token tok rows = None -> ~ In tok (map token rows).
Proof.
  unfold first_by_token. intros H Hin. apply in_map_iff in Hin as (r & <- & Hr).
  apply (find_none _ _ H) in Hr. now rewrite String.eqb_refl in Hr.
Qed.

(** Under the unique index, a stored row is the one its token finds. *)
Lemma first_by_token_stored rows r :
  NoDup (map token rows) -> In r rows ->
  first_by_token (token r) rows = Some r.
Proof.
  unfold first_by_token. induction rows as [|x rows IH]; simpl; [tauto|].
  intros Hnd Hin. inversion Hnd as [|? ? Hx Hnd']; subst.
  destruct Hin as [->|Hin].
  - now rewrite String.eqb_refl.
  - destruct (String.eqb (token x) (token r)) eqn:E; [|auto].
    apply String.eqb_eq in E. exfalso. apply Hx. rewrite E. now apply in_map.
Qed.

Lemma set_used_tokens tok rows : map token (set_used tok rows) = map token rows.
Proof.
  induction rows as [|r rows IH]; simpl; [reflexivity|].
  destruct (String.eqb (token r) tok); simpl; [reflexivity|now rewrite IH].
Qed.

Lemma set_used_absent tok rows :
  first_by_token tok rows = None -> set_used tok rows = rows.
Proof.
  unfold first_by_token. induction rows as [|r rows IH]; simpl; [reflexivity|].
  destruct (String.eqb (token r) tok); [discriminate|]. intros H. now rewrite IH.
Qed.

Lemma set_used_first tok rows r :
  first_by_token tok rows = Some r ->
  first_by_token tok (set_used tok rows) = Some (set_used_row r).
Proof.
  unfold first_by_token. induction rows as [|x rows IH]; simpl; [discriminate|].
  destruct (String.eqb (token x) tok) eqn:E; simpl.
  - intros [= ->]. now rewrite E.
  - rewrite E. exact IH.
Qed.

Lemma row_le_refl r : row_le r r.
Proof. unfold row_le. tauto. Qed.

Lemma row_le_trans r1 r2 r3 : row_le r1 r2 -> row_le r2 r3 -> row_le r1 r3.
Proof. unfold row_le. intuition congruence. Qed.

Lemma row_le_set_used r : row_le r (set_used_row r).
Proof. unfold row_le. simpl. tauto. Qed.

Lemma Forall2_row_le_refl rows : Forall2 row_le rows rows.
Proof. induction rows; constructor; auto using row_le_refl. Qed.

Lemma Forall2_row_le_trans rows1 rows2 rows3 :
  Forall2 row_le rows1 rows2 -> Forall2 row_le rows2 rows3 ->
  Forall2 row_le rows1 rows3.
Proof.
  intros H. revert rows3. induction H; intros rows3 H'; inversion H'; subst;
    constructor; eauto using row_le_trans.
Qed.

Lemma Forall2_row_le_set_used tok rows : Forall2 row_le rows (set_used tok rows).
Proof.
  induction rows as [|r rows IH]; simpl; [constructor|].
  destruct (String.eqb (token r) tok); constructor;
    auto using row_le_refl, row_le_set_used, Forall2_row_le_refl.
Qed.

Lemma evolves_refl rows : evolves rows rows.
Proof.
  exists rows, []. rewrite app_nil_r. auto using Forall2_row_le_refl.
Qed.

Lemma evolves_trans rows1 rows2 rows3 :
  evolves rows1 rows2 -> evolves rows2 rows3 -> evolves rows1 rows3.
Proof.
  intros (k1 & a1 & -> & H1) (k2 & a2 & -> & H2).
  apply Forall2_app_inv_l in H2 as (k2' & a2' & Hk & Ha & ->).
  exists k2', (a2' ++ a2). rewrite app_assoc. split; [reflexivity|].
  eauto using Forall2_row_le_trans.
Qed.

Lemma evolves_added rows added : evolves rows (rows ++ added).
Proof. exists rows, added. auto using Forall2_row_le_refl. Qed.

Lemma evolves_set_used tok rows : evolves rows (set_used tok rows).
Proof.
  exists (set_used tok rows), []. rewrite app_nil_r.
  auto using Forall2_row_le_set_used.
Qed.

(** Along an evolution a row stays at its index, with the same token, and
    stays used once used. *)
Lemma evolves_nth rows rows' (i : nat) r :
  evolves rows rows' -> nth_error rows i = Some r ->
  exists r', nth_error rows' i = Some r' /\ row_le r r'.
Proof.
  intros (kept & added & -> & H). revert i.
  induction H as [|x y rows kept Hxy H IH]; intros i Hi.
  - destruct i; discriminate.
  - destruct i as [|i]; simpl in *.
    + injection Hi as <-. eauto.
    + auto.
Qed.

Lemma Forall2_row_le_first tok rows kept r :
  Forall2 row_le rows kept -> first_by_token tok rows = Some r ->
  exists r', first_by_token tok kept = Some r' /\ row_le r r'.
Proof.
  unfold first_by_token. induction 1 as [|x y rows kept Hxy H IH]; simpl.
  - discriminate.
  - assert (token y = token x) as -> by apply Hxy.
    destruct (String.eqb (token x) tok); [|exact IH].
    intros [= <-]. eauto.
Qed.

(** Along an evolution the row a token finds stays the same row. *)
Lemma evolves_first tok rows rows' r :
  evolves rows rows' -> first_by_token tok rows = Some r ->
  exists r', first_by_token tok rows' = Some r' /\ row_le r r'.
Proof.
  intros (kept & added & -> & H) Hr.
  destruct (Forall2_row_le_first _ _ _ _ H Hr) as (r' & Hr' & Hle).
  exists r'. now rewrite first_by_token_app, Hr'.
Qed.

Lemma store_ok_set_used tok rows : store_ok rows -> store_ok (set_used tok rows).
Proof.
  intros [Hnd Hne]. split; [now rewrite set_used_tokens|].
  clear Hnd. induction rows as [|r rows IH]; simpl; [constructor|].
  inversion Hne; subst.
  destruct (String.eqb (token r) tok); constructor; auto.
Qed.

Lemma store_ok_added rows r i :
  store_ok rows -> first_by_token (token r) rows = None ->
  Py.truthy (token r) = true -> store_ok (rows ++ [with_id i r]).
Proof.
  intros [Hnd Hne] Hfresh Ht. split.
  - rewrite map_app. simpl. apply NoDup_app; [assumption|repeat constructor; auto|].
    intros x Hx [<-|[]]. now apply first_by_token_not_in in Hfresh.
  - apply Forall_app. split; [assumption|]. now repeat constructor.
Qed.

End Table.

(* ===================================================================== *)
(** ** What each helper and handler does to the world *)
(* ===================================================================== *)

Section Effects.

Implicit Types (w : World) (tok : string) (req : Request).

Ltac unfold_monad :=
  unfold get_token_row, mark_used, session_query_first, session_commit_used,
    session_commit_added, session_add, reply_text, guard, emit, attempt,
    try_except, with_block, bind, ret, raise, value, world, logged in *.

Ltac flatten_trace := rewrite <- ?app_assoc; simpl.

Lemma logged_nil w : logged w [] = w.
Proof. destruct w. unfold logged. simpl. now rewrite app_nil_r. Qed.

Lemma get_token_row_run tok w :
  get_token_row tok w =
  (Ok (first_by_token tok (table w)), logged w [SessionQuery tok]).
Proof. reflexivity. Qed.

Lemma mark_used_run tok w :
  mark_used tok w =
  (Ok tt,
   match first_by_token tok (table w) with
   | Some _ => {| table := set_used tok (table w);
                  trace := trace w ++ [SessionQuery tok; SessionCommit] |}
   | None => logged w [SessionQuery tok]
   end).
Proof.
  unfold_monad. simpl. destruct (first_by_token tok (table w)); simpl;
    [now flatten_trace|reflexivity].
Qed.

Lemma mark_used_table tok w :
  table (world (mark_used tok w)) = set_used tok (table w).
Proof.
  rewrite mark_used_run. unfold world. simpl.
  destruct (first_by_token tok (table w)) eqn:E; simpl; [reflexivity|].
  symmetry. now apply set_used_absent.
Qed.

Lemma get_reset_run req clock w :
  get_reset req clock w =
  let tok := multidict_get (args req) "token" "" in
  if negb (Py.truthy tok) then (Ok (Rendered (Some "Missing token.") false None), w)
  else
    (Ok match first_by_token tok (table w) with
        | None => Rendered (Some "Invalid token.") false None
        | Some row =>
            if used row then
              Rendered (Some "This link has already been used.") false None
            else if expires_at row <? clock then
              Rendered (Some "This link has expired.") false None
            else Rendered None true (Some (email row))
        end,
     logged w [SessionQuery tok]).
Proof.
  unfold get_reset. cbv zeta.
  destruct (negb (Py.truthy (multidict_get (args req) "token" ""))); [reflexivity|].
  unfold_monad. simpl.
  destruct (first_by_token _ (table w)) as [row|]; [|reflexivity].
  destruct (used row); [reflexivity|].
  unfold datetime.lt. now destruct (expires_at row <? clock).
Qed.

Lemma post_reset_run req clock w :
  post_reset req clock w =
  let tok := multidict_get (args req) "token" "" in
  let password := multidict_get (form req) "password" "" in
  if negb (Py.truthy tok) || negb (Py.truthy password) then
    (Ok (Body "Missing token or password" 400), w)
  else
    match first_by_token tok (table w) with
    | None => (Ok (Body "Invalid or expired token" 400), logged w [SessionQuery tok])
    | Some row =>
        if used row || (expires_at row <? clock) then
          (Ok (Body "Invalid or expired token" 400), logged w [SessionQuery tok])
        else
          (Ok (Body updated_body 200),
           {| table := set_used tok (table w);
              trace := trace w ++ [SessionQuery tok; SessionQuery tok; SessionCommit] |})
    end.
Proof.
  unfold post_reset. cbv zeta.
  destruct (negb (Py.truthy (multidict_get (args req) "token" ""))
            || negb (Py.truthy (multidict_get (form req) "password" "")));
    [reflexivity|].
  unfold bind at 1. rewrite get_token_row_run.
  destruct (first_by_token _ (table w)) as [row|] eqn:E; [|reflexivity].
  unfold datetime.lt.
  destruct (used row || (expires_at row <? clock)); [reflexivity|].
  unfold bind, ret. rewrite mark_used_run. simpl. rewrite E.
  now flatten_trace.
Qed.

Lemma create_token_run cfg email_arg rnd clock w :
  create_token cfg email_arg rnd clock w =
  match datetime.add_minutes clock (RESET_EXPIRY_MINUTES cfg) with
  | None => (Raise OverflowError, w)
  | Some expires =>
      let r := {| id := None; email := Py.strip (Py.lower email_arg);
                  token := rnd; created_at := clock; expires_at := expires;
                  used := false |} in
      match first_by_token rnd (table w) with
      | Some _ => (Raise IntegrityError, logged w [SessionAdd r; SessionCommit])
      | None =>
          (Ok rnd,
           {| table := table w ++ [with_id (next_id (table w)) r];
              trace := trace w ++ [SessionAdd r; SessionCommit] |})
      end
  end.
Proof.
  unfold create_token.
  destruct (datetime.add_minutes clock (RESET_EXPIRY_MINUTES cfg)); [|reflexivity].
  unfold_monad. simpl.
  destruct (first_by_token rnd (table w)) eqn:E.
  - apply first_by_token_some in E as E'. destruct E' as [Hin Ht].
    assert (existsb (fun x => String.eqb (token x) rnd) (table w) = true) as ->.
    { apply existsb_exists. exists r. split; [assumption|].
      now apply String.eqb_eq. }
    now flatten_trace.
  - apply first_by_token_none in E. rewrite E. now flatten_trace.
Qed.

Lemma logged_same w : w = logged w [].
Proof. symmetry. apply logged_nil. Qed.

Ltac unfold_send :=
  unfold send_reset_email, delivers, reaches_relay, delivery_events,
    has_credentials, tls_up;
  cbv zeta;
  match goal with
  | |- context [reset_message ?c ?t ?k] => set (msg := reset_message c t k)
  end;
  unfold guard, emit, try_except, with_block, bind, ret, raise, value, world.

Ltac split_answers :=
  repeat (simpl;
          match goal with
          | |- context [login_refused ?r ?a] => destruct (login_refused r a)
          | |- context [send_refused ?r ?a ?m] => destruct (send_refused r a m)
          | |- context [quit_refused ?r ?a ?b] => destruct (quit_refused r a b)
          end);
  simpl.

(** The paths through [send_reset_email], one goal for each. *)
Ltac send_paths cfg relay :=
  match goal with msg := reset_message _ _ _ |- _ =>
    destruct (headers_refused relay msg); simpl;
    [|destruct (Py.truthy_opt (SMTP_HOST cfg)); simpl;
      [destruct (Py.truthy_opt (FROM_EMAIL cfg)); simpl;
       [destruct (context_refused relay); simpl;
        [|destruct (connect_refused relay); simpl;
          [|destruct (starttls_refused relay),
              (Py.truthy_opt (SMTP_USER cfg) && Py.truthy_opt (SMTP_PASS cfg));
            split_answers]]|]|]]
  end.

Ltac sent_is_message :=
  first [ solve [intros ? [<-|[]]; split; reflexivity] | solve [intros ? []] ].

Ltac outcome :=
  first [ left; split; [reflexivity|split; reflexivity]
        | right; split; [reflexivity|eexists; reflexivity] ].

Ltac finish_case :=
  split; [reflexivity|];
  split; [simpl; lia|]; split; [simpl; lia|]; split; [simpl; lia|];
  split; [sent_is_message|outcome].

(** Every way [send_reset_email] can go.  It only talks to the relay: at
    most one connection, one login and one message, which is the reset
    message and is only handed over with a sender configured.  It returns
    exactly when [delivers] holds, and has then made the calls of
    [delivery_events]. *)
Lemma send_reset_email_cases cfg relay (to_email tok : string) w :
  exists evs,
    world (send_reset_email cfg relay to_email tok w) = logged w evs /\
    forallb is_smtp evs = true /\
    (connections evs <= 1)%nat /\ (logins evs <= 1)%nat /\
    (List.length (sent_messages evs) <= 1)%nat /\
    (forall m, In m (sent_messages evs) ->
       m = reset_message cfg to_email tok /\
       Py.truthy_opt (FROM_EMAIL cfg) = true) /\
    ((delivers cfg relay to_email tok = true /\
      value (send_reset_email cfg relay to_email tok w) = Ok tt /\
      evs = delivery_events cfg to_email tok) \/
     (delivers cfg relay to_email tok = false /\
      exists e, value (send_reset_email cfg relay to_email tok w) = Raise e)).
Proof.
  unfold_send. send_paths cfg relay;
    try (exists []; split; [apply logged_same|]; simpl; finish_case);
    unfold logged; rewrite <- ?app_assoc; simpl;
    (eexists; split; [reflexivity|]; simpl; finish_case).
Qed.

Lemma send_reset_email_value cfg relay (to_email tok : string) w w' :
  value (send_reset_email cfg relay to_email tok w')
  = value (send_reset_email cfg relay to_email tok w).
Proof.
  unfold send_reset_email. cbv zeta.
  set (msg := reset_message cfg to_email tok).
  unfold guard, emit, try_except, with_block, bind, ret, raise, value, world.
  send_paths cfg relay; reflexivity.
Qed.

Lemma forallb_is_smtp (evs : list event) :
  forallb is_smtp evs = true -> replies evs = [] /\ session_calls evs = O.
Proof.
  induction evs as [|e evs IH]; simpl; [auto|].
  intros H. apply andb_true_iff in H as [He H].
  destruct e; simpl in *; try discriminate; auto.
Qed.

(** [send_reset_email] leaves the table alone, opens at most one connection
    to the relay, sends nothing to the chat, and raises or not whatever the
    world is. *)
Lemma send_reset_email_effect cfg relay to_email tok w :
  exists evs,
    world (send_reset_email cfg relay to_email tok w) = logged w evs /\
    (connections evs <= 1)%nat /\ replies evs = [] /\ session_calls evs = O /\
    forall w', value (send_reset_email cfg relay to_email tok w')
               = value (send_reset_email cfg relay to_email tok w).
Proof.
  destruct (send_reset_email_cases cfg relay to_email tok w)
    as (evs & Hw & Hs & Hc & _).
  destruct (forallb_is_smtp _ Hs) as [Hr Hn].
  exists evs. repeat split; auto.
  intros w'. apply send_reset_email_value.
Qed.

Lemma receive_email_refused cfg relay text rnd clock w :
  valid_email (Py.strip text) = false ->
  receive_email cfg relay text rnd clock w =
  (Ok ASK_EMAIL,
   logged w [ReplyText "That doesn't look like a valid email. Please try again."]).
Proof. unfold receive_email. cbv zeta. now intros ->. Qed.

(** After a valid address, [receive_email] is [create_token], then
    [send_reset_email], then one reply. *)
Lemma receive_email_accepted cfg relay text rnd clock w :
  valid_email (Py.strip text) = true ->
  receive_email cfg relay text rnd clock w =
  match create_token cfg (Py.strip text) rnd clock w with
  | (Raise e, w1) => (Raise e, w1)
  | (Ok tok, w1) =>
      match send_reset_email cfg relay (Py.strip text) tok w1 with
      | (Raise _, w2) =>
          (Ok END,
           logged w2 [ReplyText
             "Failed to send email. Check SMTP settings in environment variables."])
      | (Ok _, w2) =>
          (Ok END,
           logged w2 [ReplyText
             ("Reset link sent to " ++ Py.strip text ++ ". Check your email.")%string])
      end
  end.
Proof.
  unfold receive_email. cbv zeta. intros ->. cbn [negb].
  unfold bind at 1.
  destruct (create_token cfg (Py.strip text) rnd clock w) as [[tok|e] w1];
    [|reflexivity].
  unfold bind at 1, attempt.
  destruct (send_reset_email cfg relay (Py.strip text) tok w1) as [[u|e] w2];
    reflexivity.
Qed.

End Effects.

(* ===================================================================== *)
(** ** Runs: the table only grows, and [used] only rises *)
(* ===================================================================== *)

Section Runs.

Implicit Types (w : World) (tok : string) (req : Request) (cfg : Config).

Lemma create_token_table cfg email_arg rnd clock w :
  table (world (create_token cfg email_arg rnd clock w)) = table w \/
  exists r, token r = rnd /\ used r = false /\
            first_by_token rnd (table w) = None /\
            table (world (create_token cfg email_arg rnd clock w))
            = table w ++ [with_id (next_id (table w)) r].
Proof.
  rewrite create_token_run.
  destruct (datetime.add_minutes clock (RESET_EXPIRY_MINUTES cfg)) as [expires|];
    [|now left].
  cbv zeta. destruct (first_by_token rnd (table w)) eqn:E; [now left|].
  right. eexists. unfold world. simpl. repeat split; [..|reflexivity]; auto.
Qed.

Lemma receive_email_table cfg relay text rnd clock w :
  table (world (receive_email cfg relay text rnd clock w)) = table w \/
  table (world (receive_email cfg relay text rnd clock w))
  = table (world (create_token cfg (Py.strip text) rnd clock w)).
Proof.
  destruct (valid_email (Py.strip text)) eqn:V.
  - right. rewrite receive_email_accepted by assumption.
    destruct (create_token cfg (Py.strip text) rnd clock w) as [[tok|e] w1];
      [|reflexivity].
    destruct (send_reset_email_effect cfg relay (Py.strip text) tok w1)
      as (evs & Hw & _).
    destruct (send_reset_email cfg relay (Py.strip text) tok w1) as [[u|e] w2];
      unfold world in *; simpl in *; now subst w2.
  - left. now rewrite receive_email_refused.
Qed.

(** The three things an action can do to the table. *)
Lemma perform_table cfg (a : action) w :
  table (perform cfg a w) = table w \/
  (exists tok, table (perform cfg a w) = set_used tok (table w)) \/
  (exists r, first_by_token (token r) (table w) = None /\ used r = false /\
             (action_ok a -> Py.truthy (token r) = true) /\
             table (perform cfg a w) = table w ++ [with_id (next_id (table w)) r]).
Proof.
  destruct a as [req clock|req clock|relay text rnd clock| | | |data
                 |email_arg rnd clock|tok|tok]; simpl.
  - left. rewrite get_reset_run. cbv zeta.
    now destruct (negb (Py.truthy (multidict_get (args req) "token" ""))).
  - rewrite post_reset_run. cbv zeta.
    destruct (negb _ || negb _); [now left|].
    destruct (first_by_token _ (table w)) as [row|]; [|now left].
    destruct (used row || _); [now left|]. right. left. eexists. reflexivity.
  - destruct (receive_email_table cfg relay text rnd clock w) as [->| ->];
      [now left|].
    destruct (create_token_table cfg (Py.strip text) rnd clock w)
      as [->|(r & <- & Hu & Hf & ->)]; [now left|].
    right. right. exists r. auto.
  - now left.
  - now left.
  - now left.
  - left. unfold button_callback, bind, emit, ret. simpl.
    now destruct (String.eqb data "reset").
  - destruct (create_token_table cfg email_arg rnd clock w)
      as [->|(r & <- & Hu & Hf & ->)]; [now left|].
    right. right. exists r. auto.
  - now left.
  - right. left. exists tok. apply mark_used_table.
Qed.

Lemma perform_evolves cfg (a : action) w :
  evolves (table w) (table (perform cfg a w)).
Proof.
  destruct (perform_table cfg a w) as [->|[(tok & ->)|(r & _ & _ & _ & ->)]];
    auto using evolves_refl, evolves_set_used, evolves_added.
Qed.

Lemma run_cons cfg (a : action) (acts : list action) w :
  run cfg (a :: acts) w = run cfg acts (perform cfg a w).
Proof. reflexivity. Qed.

Lemma run_evolves cfg (acts : list action) w :
  evolves (table w) (table (run cfg acts w)).
Proof.
  revert w. induction acts as [|a acts IH]; intros w.
  - apply evolves_refl.
  - rewrite run_cons. eauto using evolves_trans, perform_evolves.
Qed.

Lemma with_id_token (i : Z) (r : ResetToken) : token (with_id i r) = token r.
Proof. reflexivity. Qed.

Lemma perform_store_ok cfg (a : action) w :
  action_ok a -> store_ok (table w) -> store_ok (table (perform cfg a w)).
Proof.
  intros Ha Hw.
  destruct (perform_table cfg a w) as [->|[(tok & ->)|(r & Hf & _ & Ht & ->)]].
  - assumption.
  - now apply store_ok_set_used.
  - apply store_ok_added; auto.
Qed.

(** The constraints of the table hold in every world the system reaches. *)
Lemma run_store_ok cfg (acts : list action) w :
  Forall action_ok acts -> store_ok (table w) ->
  store_ok (table (run cfg acts w)).
Proof.
  intros H. revert w. induction H as [|a acts Ha H IH]; intros w Hw.
  - assumption.
  - rewrite run_cons. apply IH. now apply perform_store_ok.
Qed.

Lemma store_ok_empty : store_ok (table empty_world).
Proof. split; constructor. Qed.

End Runs.

(* ===================================================================== *)
(** ** Redemption *)
(* ===================================================================== *)

Section Redemption.

Implicit Types (w : World) (tok : string) (req : Request) (r : ResetToken).

Lemma truthy_negb (s : string) : Py.truthy s = true -> negb (Py.truthy s) = false.
Proof. now intros ->. Qed.

(** A successful POST found an unused row and left it used. *)
Lemma post_reset_success_inv req clock w tok :
  presents req tok ->
  value (post_reset req clock w) = Ok (Body updated_body 200) ->
  Py.truthy tok = true /\ has_password req /\
  exists row, first_by_token tok (table w) = Some row /\
              used row = false /\ clock <= expires_at row /\
              table (world (post_reset req clock w)) = set_used tok (table w).
Proof.
  unfold presents, has_password. intros <-. rewrite post_reset_run. cbv zeta.
  destruct (Py.truthy (multidict_get (args req) "token" "")) eqn:Ht;
    [|simpl; discriminate].
  destruct (Py.truthy (multidict_get (form req) "password" "")) eqn:Hp;
    [|simpl; discriminate].
  simpl. destruct (first_by_token _ (table w)) as [row|]; [|simpl; discriminate].
  destruct (used row) eqn:Hu; [simpl; discriminate|].
  destruct (expires_at row <? clock) eqn:He; [simpl; discriminate|].
  simpl. intros _. apply Z.ltb_ge in He. eauto 10.
Qed.

(** How both handlers treat a token that finds a row. *)
Lemma get_reset_found req clock w tok row :
  presents req tok -> Py.truthy tok = true ->
  first_by_token tok (table w) = Some row ->
  value (get_reset req clock w) =
  Ok (if used row then
        Rendered (Some "This link has already been used.") false None
      else if expires_at row <? clock then
        Rendered (Some "This link has expired.") false None
      else Rendered None true (Some (email row))).
Proof.
  unfold presents. intros <- Ht Hr. rewrite get_reset_run. cbv zeta.
  rewrite Ht. simpl. rewrite Hr.
  destruct (used row); [reflexivity|]. now destruct (expires_at row <? clock).
Qed.

Lemma post_reset_found req clock w tok row :
  presents req tok -> Py.truthy tok = true -> has_password req ->
  first_by_token tok (table w) = Some row ->
  post_reset req clock w =
  if used row || (expires_at row <? clock) then
    (Ok (Body "Invalid or expired token" 400), logged w [SessionQuery tok])
  else
    (Ok (Body updated_body 200),
     {| table := set_used tok (table w);
        trace := trace w ++ [SessionQuery tok; SessionQuery tok; SessionCommit] |}).
Proof.
  unfold presents, has_password. intros <- Ht Hp Hr. rewrite post_reset_run.
  cbv zeta. rewrite Ht, Hp. simpl. now rewrite Hr.
Qed.

(** A POST never changes the table unless it answers 200. *)
Lemma post_reset_400 req clock w :
  (exists body, value (post_reset req clock w) = Ok (Body body 400)) ->
  table (world (post_reset req clock w)) = table w.
Proof.
  rewrite post_reset_run. cbv zeta.
  destruct (negb _ || negb _); [reflexivity|].
  destruct (first_by_token _ (table w)) as [row|]; [|reflexivity].
  destruct (used row || _); [reflexivity|].
  simpl. intros (body & H). discriminate.
Qed.

Lemma post_reset_used req clock w tok row :
  presents req tok -> first_by_token tok (table w) = Some row ->
  used row = true ->
  (exists body, value (post_reset req clock w) = Ok (Body body 400)) /\
  (has_password req -> Py.truthy tok = true ->
   value (post_reset req clock w) = Ok (Body "Invalid or expired token" 400)).
Proof.
  unfold presents, has_password. intros <- Hr Hu. rewrite post_reset_run.
  cbv zeta. rewrite Hr, Hu. simpl.
  destruct (Py.truthy (multidict_get (args req) "token" ""));
    destruct (Py.truthy (multidict_get (form req) "password" ""));
    simpl; split; eauto; intros; discriminate.
Qed.

Lemma redeemable_of_first w r clock :
  first_by_token (token r) (table w) = Some r -> Py.truthy (token r) = true ->
  used r = false -> clock <= expires_at r -> redeemable w r clock.
Proof.
  intros Hr Ht Hu He req Hreq. apply Z.ltb_ge in He. split.
  - rewrite (get_reset_found _ _ _ _ _ Hreq Ht Hr). now rewrite Hu, He.
  - intros Hp. rewrite (post_reset_found _ _ _ _ _ Hreq Ht Hp Hr).
    rewrite Hu, He. simpl. split; [reflexivity|]. now apply set_used_first.
Qed.

Lemma rejected_of_first w r clock :
  first_by_token (token r) (table w) = Some r -> Py.truthy (token r) = true ->
  used r = true \/ expires_at r < clock -> rejected w r clock.
Proof.
  intros Hr Ht Hc req Hreq.
  assert (used r || (expires_at r <? clock) = true) as Hb.
  { destruct Hc as [->|Hc]; [reflexivity|]. apply Z.ltb_lt in Hc.
    rewrite Hc. apply orb_true_r. }
  assert (exists body, value (post_reset req clock w) = Ok (Body body 400)) as Hp.
  { unfold presents in Hreq. rewrite post_reset_run. cbv zeta.
    rewrite Hreq, Ht, Hr, Hb. simpl.
    destruct (negb _); simpl; eauto. }
  split; [|split; [exact Hp|now apply post_reset_400]].
  rewrite (get_reset_found _ _ _ _ _ Hreq Ht Hr).
  destruct (used r); [eauto|]. simpl in Hb. rewrite Hb. eauto.
Qed.

Lemma presents_request_of tok password : presents (request_of tok password) tok.
Proof. reflexivity. Qed.

Lemma has_password_request_of tok : has_password (request_of tok "x").
Proof. reflexivity. Qed.

End Redemption.

(* ===================================================================== *)
(** ** The token lifecycle *)
(* ===================================================================== *)

(** C1. Once a POST has redeemed the token [tok], then after any further
    sequence of actions of the system (requests, bot updates, helper calls,
    with any clock, random source and relay): the row [tok] finds is used;
    every GET with [tok] renders "This link has already been used." and
    never the form; every POST with [tok] answers 400 (with a password:
    "Invalid or expired token") and leaves the table as it is.  And in any
    run from any world, a row that is used stays at its index, with its
    token, and used: nothing sets [used] back to false. *)
Theorem used_is_permanent (cfg : Config) (w : World) (req : Request)
    (clock : datetime.t) (tok : string) :
  presents req tok ->
  value (post_reset req clock w) = Ok (Body updated_body 200) ->
  forall acts : list action,
    let w2 := run cfg acts (world (post_reset req clock w)) in
    (exists r, first_by_token tok (table w2) = Some r /\ used r = true) /\
    (forall req' clock', presents req' tok ->
       value (get_reset req' clock' w2)
       = Ok (Rendered (Some "This link has already been used.") false None) /\
       table (world (get_reset req' clock' w2)) = table w2) /\
    (forall req' clock', presents req' tok ->
       (exists body, value (post_reset req' clock' w2) = Ok (Body body 400)) /\
       (has_password req' ->
        value (post_reset req' clock' w2)
        = Ok (Body "Invalid or expired token" 400)) /\
       table (world (post_reset req' clock' w2)) = table w2) /\
    (forall (w0 : World) (acts' : list action) (i : nat) (r : ResetToken),
       nth_error (table w0) i = Some r -> used r = true ->
       exists r', nth_error (table (run cfg acts' w0)) i = Some r' /\
                  token r' = token r /\ used r' = true).
Proof.
  intros Hreq Hok acts w2.
  destruct (post_reset_success_inv _ _ _ _ Hreq Hok)
    as (Ht & _ & row & Hrow & _ & _ & Htab).
  assert (exists r, first_by_token tok (table w2) = Some r /\ used r = true)
    as (r & Hr & Hu).
  { pose proof (set_used_first _ _ _ Hrow) as H1. rewrite <- Htab in H1.
    destruct (evolves_first _ _ _ _ (run_evolves cfg acts _) H1)
      as (r' & Hr' & Hle).
    exists r'. split; [exact Hr'|]. now apply Hle. }
  split; [eauto|]. split; [|split].
  - intros req' clock' Hreq'. split.
    + rewrite (get_reset_found _ _ _ _ _ Hreq' Ht Hr). now rewrite Hu.
    + rewrite get_reset_run. cbv zeta. now destruct (negb _).
  - intros req' clock' Hreq'.
    destruct (post_reset_used _ clock' _ _ _ Hreq' Hr Hu) as [H400 Hmsg].
    split; [exact H400|]. split; [auto|]. now apply post_reset_400.
  - intros w0 acts' i r0 Hi Hu0.
    destruct (evolves_nth _ _ _ _ (run_evolves cfg acts' w0) Hi)
      as (r' & Hi' & Hle).
    exists r'. split; [exact Hi'|]. split; [apply Hle|now apply Hle].
Qed.

Lemma used_is_permanent_witness :
  let req := request_of "tok123" "hunter22" in
  let acts := [GetReset req 5; PostReset req 6;
               CreateToken "other@example.com" "tok456" 7; MarkUsed "tok456"] in
  let w2 := run default_config acts (world (post_reset req 1 issued_world)) in
  presents req "tok123" /\
  value (post_reset req 1 issued_world) = Ok (Body updated_body 200) /\
  value (get_reset req 8 w2)
  = Ok (Rendered (Some "This link has already been used.") false None).
Proof.
  intros req acts w2.
  assert (presents req "tok123") as Hreq by reflexivity.
  assert (value (post_reset req 1 issued_world) = Ok (Body updated_body 200))
    as Hok by reflexivity.
  split; [exact Hreq|]. split; [exact Hok|].
  exact (proj1 (proj1 (proj2 (used_is_permanent default_config issued_world
                                req 1 "tok123" Hreq Hok acts))
                  req 8 Hreq)).
Defined.

(** C2, as the code has it.  For every record [r] stored in a table that
    satisfies its constraints: [r] is redeemable (the GET renders the form
    for its email; the POST with a non-empty password succeeds and leaves it
    used) if and only if [used r = false] and the clock is not later than
    [expires_at r]; and both paths reject it (message without form, 400,
    table unchanged) if and only if it is used or the clock is later than
    [expires_at r]. *)
Theorem redeemable_iff (w : World) (r : ResetToken) (clock : datetime.t) :
  store_ok (table w) -> In r (table w) ->
  (redeemable w r clock <-> used r = false /\ clock <= expires_at r) /\
  (rejected w r clock <-> used r = true \/ expires_at r < clock).
Proof.
  intros [Hnd Hne] Hin.
  pose proof (first_by_token_stored _ _ Hnd Hin) as Hr.
  assert (Py.truthy (token r) = true) as Ht.
  { rewrite Forall_forall in Hne. now apply Hne. }
  assert (used r = false /\ clock <= expires_at r \/
          (used r = true \/ expires_at r < clock)) as Hcases.
  { destruct (used r); [now right; left|].
    destruct (Z.le_gt_cases clock (expires_at r)); [now left|].
    right. right. lia. }
  pose (req := request_of (token r) "x").
  pose proof (presents_request_of (token r) "x") as Hreq.
  split; split.
  - intros Hred. destruct (Hred req Hreq) as [Hget _].
    rewrite (get_reset_found _ _ _ _ _ Hreq Ht Hr) in Hget.
    destruct (used r); [discriminate|].
    destruct (expires_at r <? clock) eqn:E; [discriminate|].
    apply Z.ltb_ge in E. auto.
  - intros [Hu He]. now apply redeemable_of_first.
  - intros Hrej. destruct (Hrej req Hreq) as [(msg & Hget) _].
    rewrite (get_reset_found _ _ _ _ _ Hreq Ht Hr) in Hget.
    destruct (used r); [now left|].
    destruct (expires_at r <? clock) eqn:E; [|discriminate].
    apply Z.ltb_lt in E. auto.
  - intros Hc. now apply rejected_of_first.
Qed.

Lemma issued_world_ok : store_ok (table issued_world) /\ In issued_row (table issued_world).
Proof.
  split; [|now left]. split.
  - repeat constructor. simpl. tauto.
  - repeat constructor.
Qed.

Lemma redeemable_iff_witness :
  store_ok (table issued_world) /\ In issued_row (table issued_world) /\
  (redeemable issued_world issued_row (expires_at issued_row) <->
   used issued_row = false /\ expires_at issued_row <= expires_at issued_row).
Proof.
  split; [exact (proj1 issued_world_ok)|].
  split; [exact (proj2 issued_world_ok)|].
  exact (proj1 (redeemable_iff issued_world issued_row (expires_at issued_row)
                  (proj1 issued_world_ok) (proj2 issued_world_ok))).
Defined.

(** C2 as stated fails at the instant of expiry.  A token issued at time 0
    with the default 60 minutes is still redeemable when the clock reads
    exactly [expires_at], where the clock is not strictly less than
    [expires_at]. *)
Lemma redeemable_at_expiry_instant :
  In issued_row (table issued_world) /\
  ~ (redeemable issued_world issued_row (expires_at issued_row) <->
     used issued_row = false /\ expires_at issued_row < expires_at issued_row).
Proof.
  split; [now left|]. intros [Hclaim _].
  assert (redeemable issued_world issued_row (expires_at issued_row)) as Hred.
  { apply redeemable_of_first; reflexivity. }
  destruct (Hclaim Hred) as [_ Hlt]. lia.
Qed.

(** C3. [get_reset] never changes the table, whatever the request.  With a
    token parameter that is not empty it decides in this order: no row for
    the token gives "Invalid token."; a used row gives "This link has
    already been used.", also when it is past its expiry; an unused row past
    its expiry gives "This link has expired."; the form comes last.  An
    empty or absent token parameter gives "Missing token." before any
    lookup. *)
Theorem get_reset_order (w : World) (req : Request) (clock : datetime.t) :
  let tok := multidict_get (args req) "token" "" in
  let answer := value (get_reset req clock w) in
  table (world (get_reset req clock w)) = table w /\
  (Py.truthy tok = false ->
   get_reset req clock w = (Ok (Rendered (Some "Missing token.") false None), w)) /\
  (Py.truthy tok = true ->
   world (get_reset req clock w) = logged w [SessionQuery tok] /\
   (first_by_token tok (table w) = None ->
    answer = Ok (Rendered (Some "Invalid token.") false None)) /\
   (forall row, first_by_token tok (table w) = Some row ->
      (used row = true ->
       answer = Ok (Rendered (Some "This link has already been used.") false None)) /\
      (used row = true -> expires_at row < clock ->
       answer <> Ok (Rendered (Some "This link has expired.") false None)) /\
      (used row = false -> expires_at row < clock ->
       answer = Ok (Rendered (Some "This link has expired.") false None)) /\
      (used row = false -> clock <= expires_at row ->
       answer = Ok (Rendered None true (Some (email row)))))).
Proof.
  cbv zeta. rewrite get_reset_run. cbv zeta.
  destruct (Py.truthy (multidict_get (args req) "token" "")) eqn:Ht; simpl.
  - split; [reflexivity|]. split; [discriminate|]. intros _.
    split; [reflexivity|]. unfold value. simpl. split.
    + now intros ->.
    + intros row ->. repeat split.
      * now intros ->.
      * intros -> _. discriminate.
      * intros -> He. apply Z.ltb_lt in He. now rewrite He.
      * intros -> He. apply Z.ltb_ge in He. now rewrite He.
  - split; [reflexivity|]. split; [reflexivity|discriminate].
Qed.

Lemma get_reset_order_witness :
  let w := world (mark_used "tok123" issued_world) in
  value (get_reset (request_of "tok123" "") 3600000001 w)
  = Ok (Rendered (Some "This link has already been used.") false None).
Proof.
  pose proof (get_reset_order (world (mark_used "tok123" issued_world))
                (request_of "tok123" "") 3600000001) as H.
  cbv zeta in H. destruct H as (_ & _ & H).
  destruct (H eq_refl) as (_ & _ & Hrow).
  destruct (Hrow (set_used_row issued_row) eq_refl) as (Hused & _).
  exact (Hused eq_refl).
Defined.

(** C4. Whenever the GET would render a message instead of the form (token
    missing, unknown, used or expired), the POST of the same request at the
    same time answers 400, leaves the table unchanged, and makes at most the
    one query of [get_token_row]: [mark_used] is not called, nothing is
    committed. *)
Theorem post_reset_rejects_without_mutation (w : World) (req : Request)
    (clock : datetime.t) :
  (exists msg, value (get_reset req clock w) = Ok (Rendered (Some msg) false None)) ->
  (exists body, value (post_reset req clock w) = Ok (Body body 400)) /\
  table (world (post_reset req clock w)) = table w /\
  (world (post_reset req clock w) = w \/
   world (post_reset req clock w)
   = logged w [SessionQuery (multidict_get (args req) "token" "")]).
Proof.
  intros (msg & Hget). rewrite get_reset_run in Hget. rewrite post_reset_run.
  cbv zeta in *.
  destruct (Py.truthy (multidict_get (args req) "token" "")) eqn:Ht; simpl in *;
    [|eauto 6].
  destruct (negb (Py.truthy (multidict_get (form req) "password" "")));
    [simpl; eauto 6|].
  unfold value in Hget. simpl in Hget.
  destruct (first_by_token _ (table w)) as [row|]; [|simpl; eauto 6].
  destruct (used row); [simpl; eauto 6|].
  destruct (expires_at row <? clock); [simpl; eauto 6|discriminate].
Qed.

Lemma post_reset_rejects_without_mutation_witness :
  let req := request_of "tok123" "hunter22" in
  (exists msg, value (get_reset req 3600000001 issued_world)
               = Ok (Rendered (Some msg) false None)) /\
  table (world (post_reset req 3600000001 issued_world)) = table issued_world.
Proof.
  assert (exists msg, value (get_reset (request_of "tok123" "hunter22")
                               3600000001 issued_world)
                      = Ok (Rendered (Some msg) false None)) as H.
  { eexists. reflexivity. }
  split; [exact H|].
  apply (post_reset_rejects_without_mutation issued_world
           (request_of "tok123" "hunter22") 3600000001 H).
Defined.

(* ===================================================================== *)
(** ** Normalisation, by code point *)
(* ===================================================================== *)

Section CodePoints.

Local Open Scope string_scope.

Lemma isspace_is_white (c : ascii) : Py.isspace c = is_white c.
Proof. destruct c as [[] [] [] [] [] [] [] []]; reflexivity. Qed.

Lemma lower_char_lower_case (c : ascii) : lower_case_of c (Py.lower_char c) = true.
Proof. destruct c as [[] [] [] [] [] [] [] []]; reflexivity. Qed.

Lemma lower_char_not_capital (c : ascii) : is_capital (Py.lower_char c) = false.
Proof. destruct c as [[] [] [] [] [] [] [] []]; reflexivity. Qed.

Lemma isspace_lower_char (c : ascii) :
  Py.isspace (Py.lower_char c) = Py.isspace c.
Proof. destruct c as [[] [] [] [] [] [] [] []]; reflexivity. Qed.

Lemma lower_cased_lower (s : string) : lower_cased s (Py.lower s) = true.
Proof.
  induction s as [|c s IH]; simpl; [reflexivity|].
  now rewrite lower_char_lower_case, IH.
Qed.

Lemma lower_no_capital (s : string) :
  all_chars (fun c => negb (is_capital c)) (Py.lower s) = true.
Proof.
  induction s as [|c s IH]; simpl; [reflexivity|].
  now rewrite lower_char_not_capital, IH.
Qed.

(** A split of [lower s] is the image of a split of [s]. *)
Lemma lower_split (a b s : string) :
  Py.lower s = a ++ b ->
  exists x y, s = x ++ y /\ Py.lower x = a /\ Py.lower y = b.
Proof.
  revert s. induction a as [|c a IH]; intros s H; simpl in H.
  - exists "", s. auto.
  - destruct s as [|d s]; [discriminate|]. simpl in H.
    injection H as Hc H. destruct (IH s H) as (x & y & -> & <- & <-).
    exists (String d x), y. simpl. now rewrite Hc.
Qed.

Lemma white_of_lower (x : string) :
  all_chars Py.isspace (Py.lower x) = true -> all_chars is_white x = true.
Proof.
  induction x as [|c x IH]; simpl; [reflexivity|].
  rewrite isspace_lower_char, isspace_is_white. intros H.
  apply andb_true_iff in H as [-> H]. now rewrite IH.
Qed.

Lemma rstrip_keeps_head (c : ascii) (x : string) :
  Py.isspace c = false -> first_char (Py.rstrip (String c x)) = Some c.
Proof. intros Hc. simpl. destruct (Py.rstrip x); [now rewrite Hc|reflexivity]. Qed.

Lemma strip_first_char (s : string) (c : ascii) :
  first_char (Py.strip s) = Some c -> is_white c = false.
Proof.
  unfold Py.strip. rewrite <- isspace_is_white.
  destruct (lstrip_head s) as [->|(d & x & -> & Hd)]; [discriminate|].
  rewrite rstrip_keeps_head by assumption. now intros [= <-].
Qed.

Lemma rstrip_last_char (s : string) (c : ascii) :
  last_char (Py.rstrip s) = Some c -> Py.isspace c = false.
Proof.
  induction s as [|d s IH]; simpl; [discriminate|].
  destruct (Py.rstrip s) as [|d' r] eqn:E.
  - destruct (Py.isspace d) eqn:Hd; simpl; [discriminate|]. now intros [= <-].
  - exact IH.
Qed.

(** [email.lower().strip()] is the argument lower-cased and trimmed, as
    [normalised_from] says it by code point. *)
Lemma strip_lower_normalised (s : string) :
  normalised_from s (Py.strip (Py.lower s)).
Proof.
  unfold normalised_from. split; [|split; [|split]].
  - destruct (strip_split (Py.lower s)) as (pre' & post' & E & Hpre & Hpost).
    apply lower_split in E as (pre & rest & -> & <- & E).
    apply lower_split in E as (mid & post & -> & Hmid & <-).
    exists pre, mid, post. rewrite <- Hmid.
    auto using white_of_lower, lower_cased_lower.
  - unfold Py.strip. apply rstrip_all, lstrip_all, lower_no_capital.
  - apply strip_first_char.
  - intros c H. rewrite <- isspace_is_white.
    unfold Py.strip in H. now apply rstrip_last_char in H.
Qed.

End CodePoints.

(* ===================================================================== *)
(** ** Issuing a token *)
(* ===================================================================== *)

Lemma add_minutes_value (clock m expires : Z) :
  datetime.add_minutes clock m = Some expires ->
  expires = clock + m * 60 * 1000000 /\ 0 <= expires <= datetime.max.
Proof.
  unfold datetime.add_minutes, datetime.timedelta_minutes, datetime.add.
  cbv zeta. destruct (_ && _); [|discriminate].
  destruct ((0 <=? _) && (_ <=? datetime.max)) eqn:E; [|discriminate].
  intros [= <-]. apply andb_true_iff in E as [E1 E2].
  apply Z.leb_le in E1, E2. unfold datetime.us_per_minute in *. lia.
Qed.

(** C5. Issue, then evaluate.  For every email (valid ones included),
    when the drawn token is new to the table and the expiry is a
    representable date, [create_token] returns the drawn token, and every GET
    that presents it to the resulting world, at any time up to [expires_at]
    (so at the time of issue, when the window is not negative), renders the
    password form bound to the stored, normalised email. *)
Theorem issue_then_evaluate (cfg : Config) (w : World) (email_arg rnd : string)
    (clock expires : datetime.t) :
  Py.truthy rnd = true ->
  first_by_token rnd (table w) = None ->
  datetime.add_minutes clock (RESET_EXPIRY_MINUTES cfg) = Some expires ->
  value (create_token cfg email_arg rnd clock w) = Ok rnd /\
  (0 <= RESET_EXPIRY_MINUTES cfg -> clock <= expires) /\
  forall (req : Request) (t : datetime.t),
    presents req rnd -> t <= expires ->
    value (get_reset req t (world (create_token cfg email_arg rnd clock w)))
    = Ok (Rendered None true (Some (Py.strip (Py.lower email_arg)))).
Proof.
  intros Ht Hfresh Hexp. rewrite create_token_run, Hexp, Hfresh. cbv zeta.
  split; [reflexivity|]. split.
  - apply add_minutes_value in Hexp. nia.
  - intros req t Hreq Hle. unfold world. simpl snd.
    erewrite (get_reset_found _ _ _ _ _ Hreq Ht).
    2:{ simpl table. rewrite first_by_token_app, Hfresh. simpl.
        now rewrite String.eqb_refl. }
    simpl. apply Z.ltb_ge in Hle. now rewrite Hle.
Qed.

Lemma issue_then_evaluate_witness :
  let w := world (create_token default_config " User@Example.COM " "tok123" 0
                    empty_world) in
  value (get_reset (request_of "tok123" "") 0 w)
  = Ok (Rendered None true (Some "user@example.com")).
Proof.
  assert (0 <= 3600000000) as Hle by lia.
  exact (proj2 (proj2 (issue_then_evaluate default_config empty_world
                         " User@Example.COM " "tok123" 0 3600000000
                         eq_refl eq_refl eq_refl))
           (request_of "tok123" "") 0 eq_refl Hle).
Defined.

(** C7. Postconditions of [create_token].  When the drawn token is new to
    the table and the expiry is a representable date, exactly one row is
    appended and committed.  Its email is the argument lower-cased and
    trimmed: the argument is white space, then the characters of which the
    stored email is the lower case, then white space, and the stored email
    has no capital letter and no white space at either end.  The row is
    unused; [created_at] is the clock and [expires_at] is [created_at] plus
    [RESET_EXPIRY_MINUTES] minutes; the returned string is the row's token,
    and the token finds that row.  With the environment variable unset the
    window is 60 minutes. *)
Theorem create_token_postconditions (cfg : Config) (w : World)
    (email_arg rnd : string) (clock expires : datetime.t) :
  first_by_token rnd (table w) = None ->
  datetime.add_minutes clock (RESET_EXPIRY_MINUTES cfg) = Some expires ->
  exists row,
    value (create_token cfg email_arg rnd clock w) = Ok (token row) /\
    table (world (create_token cfg email_arg rnd clock w)) = table w ++ [row] /\
    trace (world (create_token cfg email_arg rnd clock w))
    = trace w ++ [SessionAdd {| id := None; email := email row;
                                token := token row;
                                created_at := created_at row;
                                expires_at := expires_at row;
                                used := used row |};
                  SessionCommit] /\
    first_by_token rnd (table (world (create_token cfg email_arg rnd clock w)))
    = Some row /\
    token row = rnd /\
    email row = Py.strip (Py.lower email_arg) /\
    normal_form_of email_arg (email row) /\
    normalised_from email_arg (email row) /\
    used row = false /\
    created_at row = clock /\
    expires_at row = created_at row + RESET_EXPIRY_MINUTES cfg * 60 * 1000000 /\
    (forall e : Environ, env_RESET_EXPIRY_MINUTES e = None ->
       RESET_EXPIRY_MINUTES (load_config e) = 60).
Proof.
  intros Hfresh Hexp. rewrite create_token_run, Hexp, Hfresh. cbv zeta.
  exists (with_id (next_id (table w))
            {| id := None; email := Py.strip (Py.lower email_arg); token := rnd;
               created_at := clock; expires_at := expires; used := false |}).
  unfold value, world. simpl fst. simpl snd. simpl table. simpl trace.
  split; [reflexivity|]. split; [reflexivity|]. split; [reflexivity|].
  split.
  { rewrite first_by_token_app, Hfresh. simpl. now rewrite String.eqb_refl. }
  simpl. split; [reflexivity|]. split; [reflexivity|].
  split; [apply strip_lower_normal|]. split; [apply strip_lower_normalised|].
  split; [reflexivity|]. split; [reflexivity|]. split.
  - now apply add_minutes_value in Hexp.
  - intros e He. simpl. now rewrite He.
Qed.

Lemma create_token_postconditions_witness :
  let out := create_token default_config " User@Example.COM " "tok123" 0
               empty_world in
  first_by_token "tok123" (table empty_world) = None /\
  datetime.add_minutes 0 (RESET_EXPIRY_MINUTES default_config) = Some 3600000000 /\
  value out = Ok "tok123" /\
  exists row,
    table (world out) = [row] /\
    email row = "user@example.com" /\ token row = "tok123" /\
    used row = false /\ created_at row = 0 /\ expires_at row = 3600000000.
Proof.
  intros out.
  split; [reflexivity|]. split; [reflexivity|].
  destruct (create_token_postconditions default_config empty_world
              " User@Example.COM " "tok123" 0 3600000000 eq_refl eq_refl)
    as (row & H1 & H2 & _ & _ & H3 & H4 & _ & _ & H5 & H6 & H7 & _).
  fold out in H1, H2. rewrite H3 in H1. split; [exact H1|].
  exists row. split; [exact H2|]. split; [exact H4|]. split; [exact H3|].
  split; [exact H5|]. split; [exact H6|]. rewrite H7, H6. reflexivity.
Defined.

(* ===================================================================== *)
(** ** Requests with missing fields *)
(* ===================================================================== *)

Lemma multidict_get_absent (d : list (string * string)) (key : string) :
  (forall v, ~ In (key, v) d) -> multidict_get d key "" = "".
Proof.
  induction d as [|[k v] d IH]; simpl; [reflexivity|]. intros H.
  destruct (String.eqb k key) eqn:E.
  - apply String.eqb_eq in E as ->. exfalso. apply (H v). now left.
  - apply IH. intros v' Hin. apply (H v'). now right.
Qed.

Lemma absent_or_empty_get (d : list (string * string)) (key : string) :
  absent_or_empty d key -> Py.truthy (multidict_get d key "") = false.
Proof.
  intros [H|H]; [apply multidict_get_absent in H|]; now rewrite H.
Qed.

(** C8. A POST whose [token] query parameter or [password] form field is
    absent or empty answers 400 "Missing token or password" and leaves the
    whole world as it was: the table is unchanged and the trace has no new
    call, so no session was queried. *)
Theorem post_reset_missing_fields (w : World) (req : Request) (clock : datetime.t) :
  absent_or_empty (args req) "token" \/ absent_or_empty (form req) "password" ->
  post_reset req clock w = (Ok (Body "Missing token or password" 400), w).
Proof.
  intros H. rewrite post_reset_run. cbv zeta.
  destruct H as [H|H]; apply absent_or_empty_get in H; rewrite H; simpl.
  - reflexivity.
  - now rewrite orb_true_r.
Qed.

Lemma post_reset_missing_fields_witness :
  absent_or_empty (form (request_of "tok123" "")) "password" /\
  post_reset (request_of "tok123" "") 1 issued_world
  = (Ok (Body "Missing token or password" 400), issued_world).
Proof.
  assert (absent_or_empty (form (request_of "tok123" "")) "password") as H
    by (right; reflexivity).
  split; [exact H|].
  exact (post_reset_missing_fields issued_world (request_of "tok123" "") 1
           (or_intror H)).
Defined.

(* ===================================================================== *)
(** ** Intake *)
(* ===================================================================== *)

Section Intake.

Implicit Types (w : World) (cfg : Config) (relay : Relay).

Lemma replies_app (evs evs' : list event) :
  replies (evs ++ evs') = replies evs ++ replies evs'.
Proof.
  induction evs as [|e evs IH]; simpl; [reflexivity|].
  destruct e; simpl; now rewrite ?IH.
Qed.

Lemma sent_messages_app (evs evs' : list event) :
  sent_messages (evs ++ evs') = sent_messages evs ++ sent_messages evs'.
Proof.
  induction evs as [|e evs IH]; simpl; [reflexivity|].
  destruct e; simpl; now rewrite ?IH.
Qed.

Lemma session_calls_app (evs evs' : list event) :
  session_calls (evs ++ evs') = (session_calls evs + session_calls evs')%nat.
Proof.
  induction evs as [|e evs IH]; simpl; [reflexivity|].
  destruct e; simpl; now rewrite ?IH.
Qed.

Lemma connections_app (evs evs' : list event) :
  connections (evs ++ evs') = (connections evs + connections evs')%nat.
Proof.
  induction evs as [|e evs IH]; simpl; [reflexivity|].
  destruct e; simpl; now rewrite ?IH.
Qed.

(** Absent transport configuration makes [send_reset_email] raise ... *)
Lemma send_reset_email_unconfigured cfg relay (to_email tok : string) w :
  headers_refused relay (reset_message cfg to_email tok) = false ->
  Py.truthy_opt (SMTP_HOST cfg) = false \/ Py.truthy_opt (FROM_EMAIL cfg) = false ->
  exists msg,
    send_reset_email cfg relay to_email tok w = (Raise (RuntimeError msg), w).
Proof.
  intros Hh Hc. unfold send_reset_email, guard, bind, ret, raise. cbv zeta.
  rewrite Hh.
  destruct Hc as [-> | ->]; simpl; rewrite ?orb_true_r; eauto.
Qed.

(** ... and so does a relay that refuses the connection, the login it is
    asked for, the message, or the QUIT after it. *)
Lemma send_reset_email_refused cfg relay (to_email tok : string) w :
  delivers cfg relay to_email tok = false ->
  exists e, value (send_reset_email cfg relay to_email tok w) = Raise e.
Proof.
  intros H.
  destruct (send_reset_email_cases cfg relay to_email tok w)
    as (evs & _ & _ & _ & _ & _ & _ & [(Hd & _)|(_ & He)]);
    [congruence|exact He].
Qed.

(** C6, as the code has it.  The syntactic check is made by the intake
    handler, before it calls [create_token], and not by [create_token]:
    when the stripped message text fails [valid_email], [receive_email]
    re-prompts once, returns [ASK_EMAIL], makes no session call and leaves
    the table as it is; when it passes, the table becomes what
    [create_token] on the stripped text makes of it. *)
Theorem receive_email_validates (cfg : Config) (relay : Relay) (w : World)
    (text rnd : string) (clock : datetime.t) :
  (valid_email (Py.strip text) = false ->
   receive_email cfg relay text rnd clock w
   = (Ok ASK_EMAIL,
      logged w [ReplyText "That doesn't look like a valid email. Please try again."])
   /\ table (world (receive_email cfg relay text rnd clock w)) = table w) /\
  (valid_email (Py.strip text) = true ->
   table (world (receive_email cfg relay text rnd clock w))
   = table (world (create_token cfg (Py.strip text) rnd clock w))).
Proof.
  split; intros V.
  - rewrite receive_email_refused by assumption. now split.
  - destruct (receive_email_table cfg relay text rnd clock w) as [H|H];
      [|exact H].
    rewrite receive_email_accepted by assumption.
    destruct (create_token cfg (Py.strip text) rnd clock w) as [[tok|e] w1];
      [|reflexivity].
    destruct (send_reset_email_effect cfg relay (Py.strip text) tok w1)
      as (evs & Hw & _).
    destruct (send_reset_email cfg relay (Py.strip text) tok w1) as [[u|e] w2];
      unfold world in *; simpl in *; now subst w2.
Qed.

Lemma receive_email_validates_witness :
  valid_email (Py.strip " not-an-email ") = false /\
  table (world (receive_email default_config willing_relay " not-an-email "
                  "tok123" 0 empty_world)) = table empty_world.
Proof.
  assert (valid_email (Py.strip " not-an-email ") = false) as V by reflexivity.
  split; [exact V|].
  exact (proj2 (proj1 (receive_email_validates default_config willing_relay
                         empty_world " not-an-email " "tok123" 0) V)).
Defined.

(** C6 as stated fails: [create_token] checks nothing.  Given a string that
    [valid_email] refuses, it stores a record for it. *)
Lemma create_token_stores_invalid_email :
  valid_email "not-an-email" = false /\
  create_token default_config "not-an-email" "tok123" 0 empty_world
  = (Ok "tok123",
     {| table := [{| id := Some 1; email := "not-an-email"; token := "tok123";
                     created_at := 0; expires_at := 3600000000; used := false |}];
        trace := [SessionAdd {| id := None; email := "not-an-email";
                                token := "tok123"; created_at := 0;
                                expires_at := 3600000000; used := false |};
                  SessionCommit] |}).
Proof. split; reflexivity. Qed.

(** C9. When [send_reset_email] raises after the token was created (no
    SMTP host or sender configured, or a call to the relay refused), the
    handler ends the conversation, and what it did is exactly this, in this
    order: the one insert of [create_token] (one add, one commit), then
    calls to the relay only, among them at most one connection, one login
    and one message, then one reply, the failure message.  Nothing is done
    twice.  One row was appended; it is stored unused, the token finds it,
    and it is redeemable at every time up to its expiry. *)
Theorem delivery_failure_keeps_token (cfg : Config) (relay : Relay) (w : World)
    (text rnd : string) (clock expires : datetime.t) (e : exn) :
  valid_email (Py.strip text) = true ->
  Py.truthy rnd = true ->
  first_by_token rnd (table w) = None ->
  datetime.add_minutes clock (RESET_EXPIRY_MINUTES cfg) = Some expires ->
  value (send_reset_email cfg relay (Py.strip text) rnd w) = Raise e ->
  exists (row : ResetToken) (evs smtp : list event),
    value (receive_email cfg relay text rnd clock w) = Ok END /\
    table (world (receive_email cfg relay text rnd clock w)) = table w ++ [row] /\
    trace (world (receive_email cfg relay text rnd clock w)) = trace w ++ evs /\
    evs = [SessionAdd {| id := None; email := email row; token := token row;
                         created_at := created_at row;
                         expires_at := expires_at row; used := used row |};
           SessionCommit]
          ++ smtp
          ++ [ReplyText
                "Failed to send email. Check SMTP settings in environment variables."] /\
    forallb is_smtp smtp = true /\
    (connections smtp <= 1)%nat /\ (logins smtp <= 1)%nat /\
    (List.length (sent_messages smtp) <= 1)%nat /\
    replies evs
    = ["Failed to send email. Check SMTP settings in environment variables."] /\
    (connections evs <= 1)%nat /\
    (List.length (sent_messages evs) <= 1)%nat /\
    session_calls evs = 2%nat /\
    token row = rnd /\ used row = false /\ expires_at row = expires /\
    first_by_token rnd (table (world (receive_email cfg relay text rnd clock w)))
    = Some row /\
    forall t : datetime.t,
      t <= expires ->
      redeemable (world (receive_email cfg relay text rnd clock w)) row t.
Proof.
  intros V Ht Hfresh Hexp Hsend.
  rewrite receive_email_accepted by assumption.
  rewrite create_token_run, Hexp, Hfresh. cbv zeta.
  set (r := {| id := None; email := Py.strip (Py.lower (Py.strip text));
               token := rnd; created_at := clock; expires_at := expires;
               used := false |}).
  set (w1 := {| table := table w ++ [with_id (next_id (table w)) r];
                trace := trace w ++ [SessionAdd r; SessionCommit] |}).
  destruct (send_reset_email_cases cfg relay (Py.strip text) rnd w1)
    as (smtp & Hw & Hs & Hconn & Hlog & Hmsg & _ & _).
  destruct (forallb_is_smtp _ Hs) as [Hrep Hses].
  rewrite (send_reset_email_value cfg relay (Py.strip text) rnd w1 w) in Hsend.
  destruct (send_reset_email cfg relay (Py.strip text) rnd w1) as [[u|e'] w2];
    unfold value, world in *; simpl in Hsend, Hw; [discriminate|]. subst w2.
  assert (first_by_token rnd (table w ++ [with_id (next_id (table w)) r])
          = Some (with_id (next_id (table w)) r)) as Hfirst.
  { rewrite first_by_token_app, Hfresh. simpl. now rewrite String.eqb_refl. }
  exists (with_id (next_id (table w)) r),
    ([SessionAdd r; SessionCommit] ++ smtp
     ++ [ReplyText
           "Failed to send email. Check SMTP settings in environment variables."]),
    smtp.
  simpl fst. simpl snd. unfold logged. simpl table. simpl trace.
  split; [reflexivity|]. split; [reflexivity|].
  split; [now rewrite <- !app_assoc|].
  split; [reflexivity|]. split; [exact Hs|].
  split; [exact Hconn|]. split; [exact Hlog|]. split; [exact Hmsg|].
  split; [simpl; now rewrite replies_app, Hrep|].
  split; [simpl; rewrite connections_app; simpl; lia|].
  split; [simpl; rewrite sent_messages_app; simpl; rewrite length_app; simpl; lia|].
  split; [simpl; rewrite session_calls_app, Hses; reflexivity|].
  split; [reflexivity|]. split; [reflexivity|]. split; [reflexivity|].
  split; [exact Hfirst|].
  intros t Hle. apply redeemable_of_first; simpl; auto.
Qed.

Lemma delivery_failure_keeps_token_witness :
  let out := receive_email mail_config refusing_relay " user@example.com "
               "tok123" 0 empty_world in
  valid_email (Py.strip " user@example.com ") = true /\
  value (send_reset_email mail_config refusing_relay
           (Py.strip " user@example.com ") "tok123" empty_world)
  = Raise SMTPException /\
  value out = Ok END /\
  replies (trace (world out))
  = ["Failed to send email. Check SMTP settings in environment variables."] /\
  (List.length (sent_messages (trace (world out))) <= 1)%nat /\
  (connections (trace (world out)) <= 1)%nat /\
  exists row, table (world out) = [row] /\ used row = false.
Proof.
  intros out.
  split; [reflexivity|]. split; [reflexivity|].
  destruct (delivery_failure_keeps_token mail_config refusing_relay empty_world
              " user@example.com " "tok123" 0 3600000000 _
              eq_refl eq_refl eq_refl eq_refl eq_refl)
    as (row & evs & smtp & H1 & H2 & H3 & _ & _ & _ & _ & _ & H4 & H5 & H6 & _
        & _ & H7 & _).
  fold out in H1, H2, H3.
  split; [exact H1|]. rewrite H3. simpl app.
  split; [exact H4|]. split; [exact H6|]. split; [exact H5|].
  exists row. split; [exact H2|exact H7].
Defined.

End Intake.

(* ===================================================================== *)
(** ** The address check matches a prefix *)
(* ===================================================================== *)

Lemma all_chars_app (P : ascii -> bool) (a b : string) :
  all_chars P (a ++ b)%string = all_chars P a && all_chars P b.
Proof.
  induction a as [|c a IH]; simpl; [reflexivity|].
  now rewrite IH, andb_assoc.
Qed.

Lemma address_part_no_space (s : string) : address_part s -> no_space s = true.
Proof.
  intros [_ H]. unfold no_space. induction s as [|c s IH]; simpl in *;
    [reflexivity|].
  apply andb_true_iff in H as [Hc Hs]. rewrite (IH Hs), andb_true_r.
  unfold part_char in Hc. now apply andb_true_iff in Hc as [_ ->].
Qed.

(** No string that [EMAIL_RE] denotes has white space in it. *)
Lemma denotes_EMAIL_RE_no_space (u : string) :
  denotes EMAIL_RE u -> no_space u = true.
Proof.
  intros D. apply denotes_EMAIL_RE in D as (l & d & t & -> & Hl & Hd & Ht).
  apply address_part_no_space in Hl, Hd, Ht. unfold no_space in *.
  rewrite !all_chars_app, Hl, Hd, Ht. reflexivity.
Qed.

(** C10. [valid_email] matches a prefix only.  It accepts ["a@b.c junk"],
    the match being the five characters ["a@b.c"], although the whole string
    is not one the pattern denotes (it has a space in it); and whatever
    follows an accepted string, the result is accepted as well. *)
Theorem valid_email_accepts_trailing_text :
  valid_email "a@b.c junk" = true /\
  Re.re_match EMAIL_RE "a@b.c junk" = Some 5%nat /\
  ~ denotes EMAIL_RE "a@b.c junk" /\
  no_space "a@b.c junk" = false /\
  forall s t : string, valid_email s = true -> valid_email (s ++ t) = true.
Proof.
  split; [reflexivity|]. split; [reflexivity|]. split.
  - intros D. apply denotes_EMAIL_RE_no_space in D. discriminate.
  - split; [reflexivity|]. exact valid_email_append.
Qed.

Lemma valid_email_accepts_trailing_text_witness :
  valid_email "a@b.c" = true /\ valid_email ("a@b.c" ++ " junk") = true.
Proof.
  assert (valid_email "a@b.c" = true) as V by reflexivity.
  split; [exact V|].
  exact (proj2 (proj2 (proj2 (proj2 valid_email_accepts_trailing_text)))
           "a@b.c" " junk" V).
Defined.

(* ===================================================================== *)
(** ** More on the address check and on normalisation *)
(* ===================================================================== *)

Section Addresses.

Local Open Scope string_scope.

Lemma length_append_string (a b : string) :
  String.length (a ++ b) = (String.length a + String.length b)%nat.
Proof. induction a as [|c a IH]; simpl; [reflexivity|now rewrite IH]. Qed.

Lemma address_part_head (s : string) :
  address_part s ->
  (1 <= String.length s)%nat /\
  exists c s', s = String c s' /\ part_char c = true.
Proof.
  intros [Hne H]. destruct s as [|c s]; [congruence|].
  simpl in H. apply andb_true_iff in H as [Hc _].
  split; [simpl; lia|eauto].
Qed.

(** What [valid_email] accepts: the strings that begin with
    [local@domain.tld], where each of the three parts is a non-empty run of
    characters that are neither [@] nor white space; anything may follow. *)
Theorem valid_email_shape (s : string) :
  valid_email s = true <->
  exists l d t rest,
    s = l ++ "@" ++ d ++ "." ++ t ++ rest /\
    address_part l /\ address_part d /\ address_part t.
Proof.
  rewrite valid_email_iff. split.
  - intros (u & rest & -> & D).
    apply denotes_EMAIL_RE in D as (l & d & t & -> & Hl & Hd & Ht).
    exists l, d, t, rest. split; [|auto].
    repeat (rewrite append_assoc; simpl). reflexivity.
  - intros (l & d & t & rest & -> & Hl & Hd & Ht).
    exists (l ++ "@" ++ d ++ "." ++ t), rest. split.
    + repeat (rewrite append_assoc; simpl). reflexivity.
    + apply denotes_EMAIL_RE. eauto 8.
Qed.

Lemma valid_email_shape_witness :
  valid_email "first.last@mail.example.org" = true /\
  exists l d t rest,
    "first.last@mail.example.org" = l ++ "@" ++ d ++ "." ++ t ++ rest /\
    address_part l /\ address_part d /\ address_part t.
Proof.
  assert (valid_email "first.last@mail.example.org" = true) as V by reflexivity.
  split; [exact V|].
  exact (proj1 (valid_email_shape "first.last@mail.example.org") V).
Defined.

(** What [valid_email] refuses: every string of fewer than five characters,
    and every string whose first character is [@] or white space (so the
    empty string too). *)
Theorem valid_email_needs (s : string) :
  valid_email s = true ->
  (5 <= String.length s)%nat /\
  exists c s', s = String c s' /\ part_char c = true.
Proof.
  intros V. apply valid_email_iff in V as (u & rest & -> & D).
  apply denotes_EMAIL_RE in D as (l & d & t & -> & Hl & Hd & Ht).
  destruct (address_part_head _ Hl) as (Ll & c & l' & -> & Hc).
  destruct (address_part_head _ Hd) as (Ld & _).
  destruct (address_part_head _ Ht) as (Lt & _).
  split.
  - repeat (rewrite length_append_string; simpl). simpl in *. lia.
  - simpl. eauto.
Qed.

Lemma valid_email_needs_witness :
  valid_email "a@b.c" = true /\ (5 <= String.length "a@b.c")%nat.
Proof.
  assert (valid_email "a@b.c" = true) as V by reflexivity.
  split; [exact V|]. exact (proj1 (valid_email_needs "a@b.c" V)).
Defined.

Lemma lower_lstrip (s : string) : Py.lower (Py.lstrip s) = Py.lstrip (Py.lower s).
Proof.
  induction s as [|c s IH]; simpl; [reflexivity|].
  rewrite isspace_lower_char. now destruct (Py.isspace c).
Qed.

Lemma lower_rstrip (s : string) : Py.lower (Py.rstrip s) = Py.rstrip (Py.lower s).
Proof.
  induction s as [|c s IH]; simpl; [reflexivity|].
  rewrite <- IH, isspace_lower_char.
  destruct (Py.rstrip s) as [|d r]; simpl; [|reflexivity].
  now destruct (Py.isspace c).
Qed.

Lemma lower_strip (s : string) : Py.lower (Py.strip s) = Py.strip (Py.lower s).
Proof. unfold Py.strip. now rewrite lower_rstrip, lower_lstrip. Qed.

Lemma lower_idem (s : string) : Py.lower (Py.lower s) = Py.lower s.
Proof. apply lower_of_fixed, lower_all_fixed. Qed.

(** [create_token] stores, and does, the same whether or not its caller has
    already stripped or lower-cased the address: the email it writes
    depends only on the normal form. *)
Theorem create_token_normalises (cfg : Config) (email_arg rnd : string)
    (clock : datetime.t) (w : World) :
  create_token cfg (Py.strip email_arg) rnd clock w
  = create_token cfg email_arg rnd clock w /\
  create_token cfg (Py.lower email_arg) rnd clock w
  = create_token cfg email_arg rnd clock w /\
  Py.lower (Py.strip email_arg) = Py.strip (Py.lower email_arg).
Proof.
  unfold create_token. cbv zeta.
  rewrite lower_strip, strip_idem, lower_idem. auto using lower_strip.
Qed.

(** [receive_email] acts on the stripped text only: white space around the
    message changes nothing of what it returns or does. *)
Theorem receive_email_strips (cfg : Config) (relay : Relay) (text rnd : string)
    (clock : datetime.t) (w : World) :
  receive_email cfg relay (Py.strip text) rnd clock w
  = receive_email cfg relay text rnd clock w.
Proof. unfold receive_email. cbv zeta. now rewrite strip_idem. Qed.

End Addresses.

(* ===================================================================== *)
(** ** More on the store *)
(* ===================================================================== *)

Section Store.

Implicit Types (w : World) (tok : string) (req : Request) (cfg : Config)
  (rows : list ResetToken) (r : ResetToken).

Lemma set_used_other tok tok' rows :
  tok' <> tok ->
  first_by_token tok' (set_used tok rows) = first_by_token tok' rows.
Proof.
  intros Hne. unfold first_by_token.
  induction rows as [|r rows IH]; simpl; [reflexivity|].
  destruct (String.eqb (token r) tok) eqn:E; simpl.
  - apply String.eqb_eq in E. rewrite E.
    destruct (String.eqb tok tok') eqn:E'; [|reflexivity].
    apply String.eqb_eq in E'. congruence.
  - now rewrite IH.
Qed.

Lemma set_used_idem tok rows : set_used tok (set_used tok rows) = set_used tok rows.
Proof.
  induction rows as [|r rows IH]; simpl; [reflexivity|].
  destruct (String.eqb (token r) tok) eqn:E; simpl; rewrite E; [reflexivity|].
  now rewrite IH.
Qed.

Lemma set_used_length tok rows : List.length (set_used tok rows) = List.length rows.
Proof.
  induction rows as [|r rows IH]; simpl; [reflexivity|].
  destruct (String.eqb (token r) tok); simpl; [reflexivity|now rewrite IH].
Qed.

(** [mark_used] always returns; it keeps the number of rows; it changes
    nothing of what any other token finds; without a row for the token the
    table is as before; with one, that row becomes used and nothing else of
    it changes; and a second call changes nothing more. *)
Theorem mark_used_frame (tok : string) (w : World) :
  let w' := world (mark_used tok w) in
  value (mark_used tok w) = Ok tt /\
  List.length (table w') = List.length (table w) /\
  map token (table w') = map token (table w) /\
  (forall tok', tok' <> tok ->
     first_by_token tok' (table w') = first_by_token tok' (table w)) /\
  (first_by_token tok (table w) = None -> table w' = table w) /\
  (forall r, first_by_token tok (table w) = Some r ->
     first_by_token tok (table w') = Some (set_used_row r)) /\
  table (world (mark_used tok w')) = table w'.
Proof.
  cbv zeta. rewrite !mark_used_table.
  split; [now rewrite mark_used_run|].
  split; [apply set_used_length|]. split; [apply set_used_tokens|].
  split; [intros tok' Hne; now apply set_used_other|].
  split; [apply set_used_absent|].
  split; [intros r; apply set_used_first|apply set_used_idem].
Qed.

Lemma mark_used_frame_witness :
  first_by_token "tok123" (table (world (mark_used "tok123" issued_world)))
  = Some (set_used_row issued_row).
Proof.
  exact (proj1 (proj2 (proj2 (proj2 (proj2 (proj2
           (mark_used_frame "tok123" issued_world))))))
           issued_row eq_refl).
Defined.

(** A drawn token that is already in the table.  [create_token] raises
    [IntegrityError] and the table is unchanged, whatever the email; and
    [receive_email], given a valid address, passes the exception on: it sends
    no reply to the chat and opens no connection to the relay. *)
Theorem token_collision (cfg : Config) (relay : Relay) (w : World)
    (text rnd : string) (clock expires : datetime.t) (r : ResetToken) :
  first_by_token rnd (table w) = Some r ->
  datetime.add_minutes clock (RESET_EXPIRY_MINUTES cfg) = Some expires ->
  (forall email_arg,
     value (create_token cfg email_arg rnd clock w) = Raise IntegrityError /\
     table (world (create_token cfg email_arg rnd clock w)) = table w) /\
  (valid_email (Py.strip text) = true ->
   value (receive_email cfg relay text rnd clock w) = Raise IntegrityError /\
   table (world (receive_email cfg relay text rnd clock w)) = table w /\
   exists evs,
     trace (world (receive_email cfg relay text rnd clock w)) = trace w ++ evs /\
     replies evs = [] /\ connections evs = O /\ sent_messages evs = []).
Proof.
  intros Hr Hexp. split.
  - intros email_arg. rewrite create_token_run, Hexp, Hr. cbv zeta. now split.
  - intros V. rewrite receive_email_accepted by assumption.
    rewrite create_token_run, Hexp, Hr. cbv zeta.
    unfold value, world, logged. simpl.
    split; [reflexivity|]. split; [reflexivity|].
    eexists. split; [reflexivity|]. simpl. auto.
Qed.

Lemma token_collision_witness :
  first_by_token "tok123" (table issued_world) = Some issued_row /\
  value (receive_email default_config willing_relay "other@example.com" "tok123"
           5 issued_world) = Raise IntegrityError.
Proof.
  split; [reflexivity|].
  exact (proj1 (proj2 (token_collision default_config willing_relay issued_world
                         "other@example.com" "tok123" 5 3600000005 issued_row
                         eq_refl eq_refl) eq_refl)).
Defined.

Lemma timedelta_minutes_small (m : Z) :
  - datetime.max <= m * 60 * 1000000 <= datetime.max ->
  datetime.timedelta_minutes m = Some (m * 60 * 1000000).
Proof.
  unfold datetime.timedelta_minutes, datetime.max, datetime.us_per_minute,
    datetime.us_per_day. cbv zeta. intros H.
  replace (m * (60 * 1000000)) with (m * 60 * 1000000) by lia.
  assert (-999999999 <= m * 60 * 1000000 / (86400 * 1000000) <= 999999999) as Hd.
  { split.
    - apply Z.div_le_lower_bound; lia.
    - apply Z.lt_succ_r. apply Z.div_lt_upper_bound; lia. }
  destruct Hd as [H1 H2]. apply Z.leb_le in H1, H2. now rewrite H1, H2.
Qed.

(** When the clock reads a representable date, [create_token] raises
    [OverflowError] exactly when the expiry
    [clock + RESET_EXPIRY_MINUTES minutes] is not one; it does so before any
    session call, leaving the world as it was.  Otherwise the expiry is that
    sum. *)
Theorem create_token_overflow (cfg : Config) (w : World) (email_arg rnd : string)
    (clock : datetime.t) :
  0 <= clock <= datetime.max ->
  let expires := clock + RESET_EXPIRY_MINUTES cfg * 60 * 1000000 in
  (0 <= expires <= datetime.max ->
   datetime.add_minutes clock (RESET_EXPIRY_MINUTES cfg) = Some expires /\
   value (create_token cfg email_arg rnd clock w) <> Raise OverflowError) /\
  (~ (0 <= expires <= datetime.max) ->
   create_token cfg email_arg rnd clock w = (Raise OverflowError, w)).
Proof.
  intros Hc expires. split.
  - intros He.
    assert (datetime.add_minutes clock (RESET_EXPIRY_MINUTES cfg) = Some expires)
      as Hadd.
    { unfold datetime.add_minutes. rewrite timedelta_minutes_small.
      - unfold datetime.add. cbv zeta. fold expires.
        destruct He as [H1 H2]. apply Z.leb_le in H1, H2. now rewrite H1, H2.
      - subst expires. lia. }
    split; [exact Hadd|]. rewrite create_token_run, Hadd. cbv zeta.
    destruct (first_by_token rnd (table w)); discriminate.
  - intros He. rewrite create_token_run.
    destruct (datetime.add_minutes clock (RESET_EXPIRY_MINUTES cfg)) as [x|] eqn:E;
      [|reflexivity].
    apply add_minutes_value in E. subst expires. lia.
Qed.

Lemma create_token_overflow_witness :
  let cfg := load_config
    {| env_BOT_TOKEN := None; env_FRONTEND_BASE := None; env_RESET_PATH := None;
       env_RESET_EXPIRY_MINUTES := Some (-1); env_SMTP_HOST := None;
       env_SMTP_PORT := None; env_SMTP_USER := None; env_SMTP_PASS := None;
       env_FROM_EMAIL := None; env_DATABASE_URL := None |} in
  0 <= 0 <= datetime.max /\
  create_token cfg "user@example.com" "tok123" 0 empty_world
  = (Raise OverflowError, empty_world).
Proof.
  intros cfg.
  assert (0 <= 0 <= datetime.max) as Hc by (unfold datetime.max, datetime.us_per_day; lia).
  split; [exact Hc|].
  apply (proj2 (create_token_overflow cfg empty_world "user@example.com" "tok123"
                  0 Hc)).
  unfold datetime.max, datetime.us_per_day. simpl. lia.
Defined.

Lemma perform_nodup cfg (a : action) w :
  NoDup (map token (table w)) -> NoDup (map token (table (perform cfg a w))).
Proof.
  intros Hnd.
  destruct (perform_table cfg a w) as [->|[(tok & ->)|(r & Hf & _ & _ & ->)]].
  - assumption.
  - now rewrite set_used_tokens.
  - rewrite map_app. simpl. apply NoDup_app; [assumption|repeat constructor; auto|].
    intros x Hx [<-|[]]. now apply first_by_token_not_in in Hf.
Qed.

(** The unique index holds along every run: if no two rows share a token,
    then after any sequence of actions no two rows share a token, and every
    stored row is the one its own token finds. *)
Theorem tokens_stay_unique (cfg : Config) (acts : list action) (w : World) :
  NoDup (map token (table w)) ->
  NoDup (map token (table (run cfg acts w))) /\
  forall r, In r (table (run cfg acts w)) ->
    first_by_token (token r) (table (run cfg acts w)) = Some r.
Proof.
  intros Hnd.
  assert (NoDup (map token (table (run cfg acts w)))) as H.
  { revert w Hnd. induction acts as [|a acts IH]; intros w Hnd; [assumption|].
    rewrite run_cons. apply IH. now apply perform_nodup. }
  split; [exact H|]. intros r. now apply first_by_token_stored.
Qed.

Lemma tokens_stay_unique_witness :
  NoDup (map token (table empty_world)) /\
  NoDup (map token (table (run default_config
    [CreateToken "a@example.com" "tok1" 0; CreateToken "b@example.com" "tok1" 1;
     CreateToken "a@example.com" "tok2" 2; MarkUsed "tok1"] empty_world))).
Proof.
  assert (NoDup (map token (table empty_world))) as H by constructor.
  split; [exact H|].
  exact (proj1 (tokens_stay_unique default_config _ empty_world H)).
Defined.

Lemma evolves_length rows rows' :
  evolves rows rows' -> (List.length rows <= List.length rows')%nat.
Proof.
  intros (kept & added & -> & H). apply Forall2_length in H.
  rewrite length_app. lia.
Qed.

(** No action deletes a row or rewrites one: along every run a stored row
    keeps its index and its [id], [email], [token], [created_at] and
    [expires_at], and the table never gets shorter. *)
Theorem rows_are_kept (cfg : Config) (acts : list action) (w : World) :
  (List.length (table w) <= List.length (table (run cfg acts w)))%nat /\
  forall (i : nat) (r : ResetToken),
    nth_error (table w) i = Some r ->
    exists r', nth_error (table (run cfg acts w)) i = Some r' /\
      id r' = id r /\ email r' = email r /\ token r' = token r /\
      created_at r' = created_at r /\ expires_at r' = expires_at r.
Proof.
  pose proof (run_evolves cfg acts w) as He. split.
  - now apply evolves_length.
  - intros i r Hi. destruct (evolves_nth _ _ _ _ He Hi) as (r' & Hi' & Hle).
    exists r'. unfold row_le in Hle. tauto.
Qed.

Lemma rows_are_kept_witness :
  exists r',
    nth_error (table (run default_config
      [PostReset (request_of "tok123" "hunter22") 1;
       CreateToken "b@example.com" "tok2" 2] issued_world)) 0 = Some r' /\
    email r' = email issued_row.
Proof.
  destruct (proj2 (rows_are_kept default_config
              [PostReset (request_of "tok123" "hunter22") 1;
               CreateToken "b@example.com" "tok2" 2] issued_world)
              O issued_row eq_refl) as (r' & H & _ & He & _).
  exists r'. split; assumption.
Defined.

End Store.

(* ===================================================================== *)
(** ** More on the reset page *)
(* ===================================================================== *)

Section ResetPage.

Implicit Types (w : World) (tok : string) (req : Request) (cfg : Config)
  (r : ResetToken).

(** What the two handlers answer depends on the table only through the row
    that the presented token finds. *)
Lemma get_reset_value_ext req clock w w' :
  first_by_token (multidict_get (args req) "token" "") (table w')
  = first_by_token (multidict_get (args req) "token" "") (table w) ->
  value (get_reset req clock w') = value (get_reset req clock w).
Proof.
  intros H. rewrite !get_reset_run. cbv zeta.
  destruct (negb _); [reflexivity|]. unfold value. simpl. now rewrite H.
Qed.

Lemma post_reset_value_ext req clock w w' :
  first_by_token (multidict_get (args req) "token" "") (table w')
  = first_by_token (multidict_get (args req) "token" "") (table w) ->
  value (post_reset req clock w') = value (post_reset req clock w).
Proof.
  intros H. rewrite !post_reset_run. cbv zeta.
  destruct (negb _ || negb _); [reflexivity|]. rewrite H.
  destruct (first_by_token _ (table w)) as [row|]; [|reflexivity].
  now destruct (used row || _).
Qed.

(** Expiry is final.  Once the clock has passed the [expires_at] of the row
    a token finds, then after any further actions and at any later time the
    GET with that token renders a message and no form, and the POST answers
    400 and leaves the table as it is. *)
Theorem expired_is_final (cfg : Config) (w : World) (tok : string)
    (r : ResetToken) (clock : datetime.t) :
  first_by_token tok (table w) = Some r ->
  expires_at r < clock ->
  forall (acts : list action) (req : Request) (clock' : datetime.t),
    clock <= clock' -> presents req tok ->
    let w' := run cfg acts w in
    (exists msg, value (get_reset req clock' w')
                 = Ok (Rendered (Some msg) false None)) /\
    (exists body, value (post_reset req clock' w') = Ok (Body body 400)) /\
    table (world (post_reset req clock' w')) = table w'.
Proof.
  intros Hr He acts req clock' Hc Hreq w'.
  destruct (evolves_first _ _ _ _ (run_evolves cfg acts w) Hr)
    as (r' & Hr' & Hle).
  fold w' in Hr'.
  assert ((expires_at r' <? clock') = true) as Hlt.
  { apply Z.ltb_lt. destruct Hle as (_ & _ & _ & _ & -> & _). lia. }
  assert (exists body, value (post_reset req clock' w') = Ok (Body body 400))
    as Hpost.
  { unfold presents in Hreq. rewrite post_reset_run. cbv zeta.
    rewrite Hreq, Hr', Hlt, orb_true_r.
    destruct (negb _ || negb _); simpl; eauto. }
  split; [|split; [exact Hpost|now apply post_reset_400]].
  unfold presents in Hreq. rewrite get_reset_run. cbv zeta.
  rewrite Hreq, Hr', Hlt.
  destruct (negb _); simpl; [eauto|]. destruct (used r'); eauto.
Qed.

Lemma expired_is_final_witness :
  exists msg,
    value (get_reset (request_of "tok123" "") 3600000002
             (run default_config [CreateToken "b@example.com" "tok2" 3600000001]
                issued_world))
    = Ok (Rendered (Some msg) false None).
Proof.
  assert (expires_at issued_row < 3600000001) as He by (simpl; lia).
  assert (3600000001 <= 3600000002) as Hc by lia.
  exact (proj1 (expired_is_final default_config issued_world "tok123" issued_row
                  3600000001 eq_refl He
                  [CreateToken "b@example.com" "tok2" 3600000001]
                  (request_of "tok123" "") 3600000002 Hc eq_refl)).
Defined.

(** Tokens are independent.  Whatever a POST with one token does, the
    answers to a GET and to a POST with any other token are afterwards what
    they were before. *)
Theorem redeeming_leaves_other_tokens (w : World) (req req' : Request)
    (clock clock' : datetime.t) :
  multidict_get (args req') "token" "" <> multidict_get (args req) "token" "" ->
  let w1 := world (post_reset req clock w) in
  value (get_reset req' clock' w1) = value (get_reset req' clock' w) /\
  value (post_reset req' clock' w1) = value (post_reset req' clock' w).
Proof.
  intros Hne w1.
  assert (first_by_token (multidict_get (args req') "token" "") (table w1)
          = first_by_token (multidict_get (args req') "token" "") (table w)) as H.
  { subst w1. rewrite post_reset_run. cbv zeta.
    destruct (negb _ || negb _); [reflexivity|].
    destruct (first_by_token _ (table w)) as [row|]; [|reflexivity].
    destruct (used row || _); [reflexivity|].
    unfold world. simpl. now apply set_used_other. }
  split; [now apply get_reset_value_ext|now apply post_reset_value_ext].
Qed.

Lemma redeeming_leaves_other_tokens_witness :
  let w := world (create_token default_config "b@example.com" "tok2" 1
                    issued_world) in
  let w1 := world (post_reset (request_of "tok123" "hunter22") 2 w) in
  value (get_reset (request_of "tok2" "") 3 w1)
  = value (get_reset (request_of "tok2" "") 3 w).
Proof.
  intros w w1.
  assert (multidict_get (args (request_of "tok2" "")) "token" ""
          <> multidict_get (args (request_of "tok123" "hunter22")) "token" "")
    as Hne by discriminate.
  exact (proj1 (redeeming_leaves_other_tokens w (request_of "tok123" "hunter22")
                  (request_of "tok2" "") 2 3 Hne)).
Defined.

(** Issuing never disturbs a token that is already stored: whatever
    [create_token] is given and whether it returns or raises, an existing
    token finds the row it found before, and the GET and the POST with it
    answer as before.  So several tokens can be live for one email. *)
Theorem issuing_leaves_stored_tokens (cfg : Config) (w : World)
    (email_arg rnd : string) (clock : datetime.t) (tok : string) (r : ResetToken) :
  first_by_token tok (table w) = Some r ->
  let w1 := world (create_token cfg email_arg rnd clock w) in
  first_by_token tok (table w1) = Some r /\
  forall (req : Request) (clock' : datetime.t), presents req tok ->
    value (get_reset req clock' w1) = value (get_reset req clock' w) /\
    value (post_reset req clock' w1) = value (post_reset req clock' w).
Proof.
  intros Hr w1.
  assert (first_by_token tok (table w1) = Some r) as H.
  { subst w1.
    destruct (create_token_table cfg email_arg rnd clock w)
      as [->|(x & _ & _ & _ & ->)]; [assumption|].
    now rewrite first_by_token_app, Hr. }
  split; [exact H|]. intros req clock' Hreq. unfold presents in Hreq.
  split; [apply get_reset_value_ext|apply post_reset_value_ext];
    rewrite Hreq; congruence.
Qed.

Lemma issuing_leaves_stored_tokens_witness :
  first_by_token "tok123"
    (table (world (create_token default_config "user@example.com" "tok2" 5
                     issued_world))) = Some issued_row.
Proof.
  exact (proj1 (issuing_leaves_stored_tokens default_config issued_world
                  "user@example.com" "tok2" 5 "tok123" issued_row eq_refl)).
Defined.

(** The two handlers agree.  For one request, at one time, in one world, the
    POST succeeds exactly when the password field is not empty and the GET
    renders the form. *)
Theorem post_succeeds_iff_form (w : World) (req : Request) (clock : datetime.t) :
  value (post_reset req clock w) = Ok (Body updated_body 200) <->
  has_password req /\
  exists e, value (get_reset req clock w) = Ok (Rendered None true (Some e)).
Proof.
  unfold has_password. rewrite get_reset_run, post_reset_run. cbv zeta.
  destruct (Py.truthy (multidict_get (args req) "token" "")); simpl.
  2:{ split; [discriminate|]. intros (_ & e & H). discriminate. }
  destruct (Py.truthy (multidict_get (form req) "password" "")); simpl.
  2:{ split; [discriminate|]. intros (H & _). discriminate. }
  unfold value. simpl.
  destruct (first_by_token _ (table w)) as [row|]; simpl.
  2:{ split; [discriminate|]. intros (_ & e & H). discriminate. }
  destruct (used row); simpl.
  { split; [discriminate|]. intros (_ & e & H). discriminate. }
  destruct (expires_at row <? clock); simpl.
  { split; [discriminate|]. intros (_ & e & H). discriminate. }
  split; eauto.
Qed.

Lemma post_succeeds_iff_form_witness :
  value (post_reset (request_of "tok123" "hunter22") 1 issued_world)
  = Ok (Body updated_body 200).
Proof.
  apply (proj2 (post_succeeds_iff_form issued_world
                  (request_of "tok123" "hunter22") 1)).
  split; [reflexivity|]. eexists. reflexivity.
Defined.

End ResetPage.

(* ===================================================================== *)
(** ** More on the mail *)
(* ===================================================================== *)

Section Mail.

Implicit Types (w : World) (cfg : Config) (relay : Relay).

Ltac split_answers :=
  repeat (simpl;
          match goal with
          | |- context [login_refused ?r ?a] => destruct (login_refused r a)
          | |- context [send_refused ?r ?a ?m] => destruct (send_refused r a m)
          | |- context [quit_refused ?r ?a ?b] => destruct (quit_refused r a b)
          end);
  simpl.

(** [send_reset_email] returns exactly when the headers are accepted, host
    and sender are configured, the TLS context is made, the connection
    opened, and neither the login (made only with both credentials set), nor
    the message, nor the QUIT on leaving the block is refused; STARTTLS may
    fail.  It has then made exactly these calls: connect, STARTTLS, the
    login if any, one message (subject, sender, recipient and text of
    [reset_message]), QUIT.  In every case the table is untouched, only the
    relay is called, and at most one connection, one login and one message
    are made. *)
Theorem send_reset_email_delivery (cfg : Config) (relay : Relay)
    (to_email tok : string) (w : World) :
  (value (send_reset_email cfg relay to_email tok w) = Ok tt
   <-> delivers cfg relay to_email tok = true) /\
  (delivers cfg relay to_email tok = true ->
   world (send_reset_email cfg relay to_email tok w)
   = logged w (delivery_events cfg to_email tok)) /\
  table (world (send_reset_email cfg relay to_email tok w)) = table w /\
  exists evs,
    trace (world (send_reset_email cfg relay to_email tok w)) = trace w ++ evs /\
    forallb is_smtp evs = true /\
    (connections evs <= 1)%nat /\ (logins evs <= 1)%nat /\
    (List.length (sent_messages evs) <= 1)%nat /\
    (forall m, In m (sent_messages evs) -> m = reset_message cfg to_email tok).
Proof.
  destruct (send_reset_email_cases cfg relay to_email tok w)
    as (evs & Hw & Hs & Hc & Hl & Hm & Hin & Hout). rewrite Hw.
  assert (exists evs0,
            trace (logged w evs) = trace w ++ evs0 /\
            forallb is_smtp evs0 = true /\
            (connections evs0 <= 1)%nat /\ (logins evs0 <= 1)%nat /\
            (List.length (sent_messages evs0) <= 1)%nat /\
            (forall m, In m (sent_messages evs0) ->
               m = reset_message cfg to_email tok)) as Hevs.
  { exists evs. repeat split; auto. intros m Hm'. now apply Hin. }
  destruct Hout as [(Hd & Hv & ->)|(Hd & (e & Hv))].
  - split; [tauto|]. split; [reflexivity|]. split; [reflexivity|exact Hevs].
  - split; [split; congruence|]. split; [congruence|].
    split; [reflexivity|exact Hevs].
Qed.

Lemma send_reset_email_delivery_witness :
  delivers mail_config willing_relay "user@example.com" "tok123" = true /\
  world (send_reset_email mail_config willing_relay "user@example.com" "tok123"
           empty_world)
  = {| table := [];
       trace := [SmtpConnect "smtp.example.com" 587; SmtpStartTls;
                 SmtpLogin "mailer@example.com" "secret";
                 SmtpSendMessage
                   (reset_message mail_config "user@example.com" "tok123");
                 SmtpQuit] |}.
Proof.
  assert (delivers mail_config willing_relay "user@example.com" "tok123" = true)
    as H by reflexivity.
  split; [exact H|].
  exact (proj1 (proj2 (send_reset_email_delivery mail_config willing_relay
                         "user@example.com" "tok123" empty_world)) H).
Defined.

(** A failed STARTTLS is swallowed.  Once the connection is open, and
    STARTTLS raises, [send_reset_email] goes on on that connection: it logs
    in if both credentials are set, hands over the message unless the login
    was refused, and sends QUIT; it returns exactly when the relay, without
    TLS, refuses none of these. *)
Theorem starttls_failure_is_swallowed (cfg : Config) (relay : Relay)
    (to_email tok : string) (w : World) :
  reaches_relay cfg relay to_email tok = true ->
  starttls_refused relay = true ->
  let login_fails := has_credentials cfg && login_refused relay false in
  world (send_reset_email cfg relay to_email tok w)
  = logged w
      ([SmtpConnect (environ_get (SMTP_HOST cfg) "") (SMTP_PORT cfg);
        SmtpStartTls]
       ++ (if has_credentials cfg
           then [SmtpLogin (environ_get (SMTP_USER cfg) "")
                           (environ_get (SMTP_PASS cfg) "")]
           else [])
       ++ (if login_fails then []
           else [SmtpSendMessage (reset_message cfg to_email tok)])
       ++ [SmtpQuit]) /\
  (value (send_reset_email cfg relay to_email tok w) = Ok tt <->
   login_fails = false /\
   send_refused relay false (reset_message cfg to_email tok) = false /\
   quit_refused relay false true = false).
Proof.
  unfold reaches_relay. intros Hr Htls. rewrite !andb_true_iff in Hr.
  destruct Hr as ((((Hh & Hhost) & Hfrom) & Hctx) & Hconn).
  apply negb_true_iff in Hh, Hctx, Hconn.
  unfold send_reset_email, has_credentials. cbv zeta.
  set (msg := reset_message cfg to_email tok) in *.
  unfold guard, emit, try_except, with_block, bind, ret, raise, value, world,
    logged.
  rewrite Hh, Hhost, Hfrom, Hctx, Hconn, Htls. simpl.
  destruct (Py.truthy_opt (SMTP_USER cfg) && Py.truthy_opt (SMTP_PASS cfg));
    split_answers; rewrite <- ?app_assoc; simpl;
    (split; [reflexivity|]; split; [intros H|intros (H1 & H2 & H3)];
     first [discriminate | auto]).
Qed.

Lemma starttls_failure_is_swallowed_witness :
  let relay :=
    {| header_refused := fun _ _ => false; context_refused := false;
       connect_refused := false; starttls_refused := true;
       login_refused := fun _ => false; send_refused := fun _ _ => false;
       quit_refused := fun _ _ => false |} in
  reaches_relay mail_config relay "user@example.com" "tok123" = true /\
  sent_messages
    (trace (world (send_reset_email mail_config relay "user@example.com" "tok123"
                     empty_world)))
  = [reset_message mail_config "user@example.com" "tok123"].
Proof.
  intros relay.
  assert (reaches_relay mail_config relay "user@example.com" "tok123" = true)
    as H by reflexivity.
  split; [exact H|].
  rewrite (proj1 (starttls_failure_is_swallowed mail_config relay
                    "user@example.com" "tok123" empty_world H eq_refl)).
  reflexivity.
Defined.

Lemma sender_of_message cfg (to_email tok : string) :
  Py.truthy_opt (FROM_EMAIL cfg) = true ->
  FROM_EMAIL cfg = Some (msg_From (reset_message cfg to_email tok)) /\
  Py.truthy (msg_From (reset_message cfg to_email tok)) = true /\
  msg_To (reset_message cfg to_email tok) = to_email.
Proof.
  unfold reset_message. cbn [msg_From msg_To].
  destruct (FROM_EMAIL cfg) as [s|]; [|discriminate].
  cbn [Py.truthy_opt Py.or_else]. intros H. rewrite H. auto.
Qed.

(** The sender of the mail.  Every message handed to the relay carries the
    configured [FROM_EMAIL], which is not empty: the built-in sender
    ["no-reply@example.com"] of the message is never used on the wire.  With
    the variable [FROM_EMAIL] unset the configured sender is [SMTP_USER]; with
    it set but empty there is no fall-back, and [send_reset_email] raises
    without a call to the relay, also when [SMTP_HOST] and [SMTP_USER] are
    set: [RuntimeError] when the headers were accepted. *)
Theorem mail_sender (e : Environ) (relay : Relay) (to_email tok : string)
    (w : World) :
  let cfg := load_config e in
  (exists evs,
     world (send_reset_email cfg relay to_email tok w) = logged w evs /\
     forall m, In m (sent_messages evs) ->
       FROM_EMAIL cfg = Some (msg_From m) /\ Py.truthy (msg_From m) = true /\
       msg_To m = to_email) /\
  (env_FROM_EMAIL e = None -> FROM_EMAIL cfg = env_SMTP_USER e) /\
  (env_FROM_EMAIL e = Some EmptyString ->
   (exists x, send_reset_email cfg relay to_email tok w = (Raise x, w)) /\
   (headers_refused relay (reset_message cfg to_email tok) = false ->
    exists msg,
      send_reset_email cfg relay to_email tok w = (Raise (RuntimeError msg), w))).
Proof.
  intros cfg. split; [|split].
  - destruct (send_reset_email_cases cfg relay to_email tok w)
      as (evs & Hw & _ & _ & _ & _ & Hin & _).
    exists evs. split; [exact Hw|]. intros m Hm.
    destruct (Hin m Hm) as [-> Hf].
    exact (sender_of_message cfg to_email tok Hf).
  - subst cfg. simpl. now intros ->.
  - intros He.
    assert (Py.truthy_opt (FROM_EMAIL cfg) = false) as Hf.
    { subst cfg. simpl. now rewrite He. }
    split.
    + destruct (headers_refused relay (reset_message cfg to_email tok)) eqn:Hh.
      * exists ValueError. unfold send_reset_email, guard, bind, raise.
        cbv zeta. now rewrite Hh.
      * destruct (send_reset_email_unconfigured cfg relay to_email tok w Hh
                    (or_intror Hf)) as (msg & H). eauto.
    + intros Hh. apply send_reset_email_unconfigured; auto.
Qed.

Lemma mail_sender_witness :
  FROM_EMAIL (load_config mail_environ) = env_SMTP_USER mail_environ.
Proof.
  exact (proj1 (proj2 (mail_sender mail_environ willing_relay "user@example.com"
                         "tok123" empty_world)) eq_refl).
Defined.

Lemma rstrip_char_snoc (ch : ascii) (s : string) :
  Py.rstrip_char ch (s ++ String ch EmptyString)%string = Py.rstrip_char ch s.
Proof.
  induction s as [|c s IH]; simpl.
  - now rewrite Ascii.eqb_refl.
  - now rewrite IH.
Qed.

Lemma rstrip_char_idem (ch : ascii) (s : string) :
  Py.rstrip_char ch (Py.rstrip_char ch s) = Py.rstrip_char ch s.
Proof.
  induction s as [|c s IH]; simpl; [reflexivity|].
  destruct (Py.rstrip_char ch s) as [|d r] eqn:E.
  - destruct (Ascii.eqb c ch) eqn:Hc; simpl; [reflexivity|now rewrite Hc].
  - change (Py.rstrip_char ch (String c (String d r))) with
      (match Py.rstrip_char ch (String d r) with
       | EmptyString => if Ascii.eqb c ch then EmptyString
                        else String c EmptyString
       | r0 => String c r0
       end).
    now rewrite IH.
Qed.

(** The link in the mail does not depend on slashes at the end of
    [FRONTEND_BASE]: one more slash, or stripping them beforehand, gives the
    same link. *)
Theorem reset_link_ignores_trailing_slash (cfg : Config) (base tok : string) :
  reset_link (set_frontend_base (base ++ "/")%string cfg) tok
  = reset_link (set_frontend_base base cfg) tok /\
  reset_link (set_frontend_base (Py.rstrip_char "/" base) cfg) tok
  = reset_link (set_frontend_base base cfg) tok.
Proof.
  unfold reset_link. simpl.
  now rewrite rstrip_char_snoc, rstrip_char_idem.
Qed.

(** The whole intake when the mail goes out.  For a valid address, a fresh
    token and a representable expiry, whenever [send_reset_email] returns on
    the stripped text, [receive_email] ends the conversation having done
    exactly this, in this order: the one insert of [create_token], the
    calls of a delivery (connect, STARTTLS, the login if any, one message,
    QUIT), one reply.  The message goes to the address as typed (stripped),
    which then has no line break in it; the row stores it lower-cased; and
    the token in the mailed link finds that row, which is redeemable up to
    its expiry. *)
Theorem receive_email_delivers (cfg : Config) (relay : Relay) (w : World)
    (text rnd : string) (clock expires : datetime.t) :
  valid_email (Py.strip text) = true ->
  Py.truthy rnd = true ->
  first_by_token rnd (table w) = None ->
  datetime.add_minutes clock (RESET_EXPIRY_MINUTES cfg) = Some expires ->
  value (send_reset_email cfg relay (Py.strip text) rnd w) = Ok tt ->
  exists (row : ResetToken) (evs : list event),
    value (receive_email cfg relay text rnd clock w) = Ok END /\
    table (world (receive_email cfg relay text rnd clock w)) = table w ++ [row] /\
    trace (world (receive_email cfg relay text rnd clock w)) = trace w ++ evs /\
    evs = [SessionAdd {| id := None; email := email row; token := token row;
                         created_at := created_at row;
                         expires_at := expires_at row; used := used row |};
           SessionCommit]
          ++ delivery_events cfg (Py.strip text) rnd
          ++ [ReplyText
                ("Reset link sent to " ++ Py.strip text
                 ++ ". Check your email.")%string] /\
    sent_messages evs = [reset_message cfg (Py.strip text) rnd] /\
    replies evs
    = [("Reset link sent to " ++ Py.strip text ++ ". Check your email.")%string] /\
    Py.several_lines (Py.strip text) = false /\
    email row = Py.lower (Py.strip text) /\
    token row = rnd /\ used row = false /\ expires_at row = expires /\
    forall t : datetime.t,
      t <= expires ->
      redeemable (world (receive_email cfg relay text rnd clock w)) row t.
Proof.
  intros V Ht Hfresh Hexp Hsend.
  rewrite receive_email_accepted by assumption.
  rewrite create_token_run, Hexp, Hfresh. cbv zeta.
  set (r := {| id := None; email := Py.strip (Py.lower (Py.strip text));
               token := rnd; created_at := clock; expires_at := expires;
               used := false |}).
  set (w1 := {| table := table w ++ [with_id (next_id (table w)) r];
                trace := trace w ++ [SessionAdd r; SessionCommit] |}).
  rewrite (send_reset_email_value cfg relay (Py.strip text) rnd w1 w) in Hsend.
  destruct (send_reset_email_cases cfg relay (Py.strip text) rnd w1)
    as (evs & Hw & _ & _ & _ & _ & _ & [(Hd & Hv & ->)|(_ & e & He)]);
    [|congruence].
  assert (Py.several_lines (Py.strip text) = false) as Hlines.
  { unfold delivers, reaches_relay, headers_refused in Hd.
    rewrite !andb_true_iff in Hd.
    destruct Hd as (((((((Hh & _) & _) & _) & _) & _) & _) & _).
    apply negb_true_iff in Hh. rewrite !orb_false_iff in Hh.
    destruct Hh as [[_ Hto] _]. exact Hto. }
  destruct (send_reset_email cfg relay (Py.strip text) rnd w1) as [[u|e'] w2];
    unfold value, world in *; simpl in Hv, Hw; [|discriminate]. subst w2.
  assert (first_by_token rnd (table w ++ [with_id (next_id (table w)) r])
          = Some (with_id (next_id (table w)) r)) as Hfirst.
  { rewrite first_by_token_app, Hfresh. simpl. now rewrite String.eqb_refl. }
  exists (with_id (next_id (table w)) r),
    ([SessionAdd r; SessionCommit] ++ delivery_events cfg (Py.strip text) rnd
     ++ [ReplyText
           ("Reset link sent to " ++ Py.strip text ++ ". Check your email.")%string]).
  simpl fst. simpl snd. unfold logged. simpl table. simpl trace.
  split; [reflexivity|]. split; [reflexivity|].
  split; [now rewrite <- !app_assoc|]. split; [reflexivity|].
  split; [unfold delivery_events; now destruct (has_credentials cfg)|].
  split; [unfold delivery_events; now destruct (has_credentials cfg)|].
  split; [exact Hlines|].
  split; [simpl; now rewrite <- lower_strip, strip_idem|].
  split; [reflexivity|]. split; [reflexivity|]. split; [reflexivity|].
  intros t Hle. apply redeemable_of_first; simpl; auto.
Qed.

Lemma receive_email_delivers_witness :
  let out := receive_email mail_config willing_relay " User@Example.com "
               "tok123" 0 empty_world in
  valid_email (Py.strip " User@Example.com ") = true /\
  value (send_reset_email mail_config willing_relay
           (Py.strip " User@Example.com ") "tok123" empty_world) = Ok tt /\
  value out = Ok END /\
  replies (trace (world out))
  = ["Reset link sent to User@Example.com. Check your email."] /\
  sent_messages (trace (world out))
  = [reset_message mail_config "User@Example.com" "tok123"] /\
  exists row, table (world out) = [row] /\ email row = "user@example.com".
Proof.
  intros out.
  split; [reflexivity|]. split; [reflexivity|].
  destruct (receive_email_delivers mail_config willing_relay empty_world
              " User@Example.com " "tok123" 0 3600000000
              eq_refl eq_refl eq_refl eq_refl eq_refl)
    as (row & evs & H1 & H2 & H3 & _ & H4 & H5 & _ & H6 & _).
  fold out in H1, H2, H3.
  split; [exact H1|]. rewrite H3. simpl app.
  split; [exact H5|]. split; [exact H4|].
  exists row. split; [exact H2|exact H6].
Defined.

End Mail.

(* ===================================================================== *)
(** ** Commands of the bot *)
(* ===================================================================== *)

Lemma command_effect (cfg : Config) (a : action) (w : World) :
  is_command a ->
  exists evs, perform cfg a w = logged w evs /\
              session_calls evs = O /\ connections evs = O.
Proof.
  destruct a; simpl; try tauto; intros _.
  - eexists. split; [reflexivity|]. auto.
  - eexists. split; [reflexivity|]. auto.
  - eexists. split; [reflexivity|]. auto.
  - unfold button_callback, bind, emit, ret, world, logged. simpl.
    destruct (String.eqb data "reset"); simpl; rewrite <- ?app_assoc; simpl;
      (eexists; split; [reflexivity|]; auto).
Qed.

(** [/start], [/reset], [/cancel] and button presses, in any number and
    order, leave the table as it is, make no session call and open no
    connection to the relay; so whatever the reset page answered before, it
    answers after. *)
Theorem commands_leave_store (cfg : Config) (acts : list action) (w : World) :
  Forall is_command acts ->
  (exists evs, run cfg acts w = logged w evs /\
               session_calls evs = O /\ connections evs = O) /\
  forall (req : Request) (clock : datetime.t),
    value (get_reset req clock (run cfg acts w)) = value (get_reset req clock w) /\
    value (post_reset req clock (run cfg acts w)) = value (post_reset req clock w).
Proof.
  intros H.
  assert (exists evs, run cfg acts w = logged w evs /\
                      session_calls evs = O /\ connections evs = O) as Hrun.
  { revert w. induction H as [|a acts Ha H IH]; intros w.
    - exists []. rewrite logged_nil. auto.
    - rewrite run_cons.
      destruct (command_effect cfg a w Ha) as (e1 & -> & Hs1 & Hc1).
      destruct (IH (logged w e1)) as (e2 & -> & Hs2 & Hc2).
      exists (e1 ++ e2). unfold logged. simpl.
      rewrite app_assoc, session_calls_app, connections_app, Hs1, Hs2, Hc1, Hc2.
      auto. }
  split; [exact Hrun|]. destruct Hrun as (evs & -> & _).
  intros req clock.
  split; [apply get_reset_value_ext|apply post_reset_value_ext]; reflexivity.
Qed.

Lemma commands_leave_store_witness :
  value (get_reset (request_of "tok123" "") 1
           (run default_config [Start; ButtonCallback "reset"; ResetCommand; Cancel]
              issued_world))
  = value (get_reset (request_of "tok123" "") 1 issued_world).
Proof.
  assert (Forall is_command [Start; ButtonCallback "reset"; ResetCommand; Cancel])
    as H by (repeat constructor).
  exact (proj1 (proj2 (commands_leave_store default_config _ issued_world H)
                  (request_of "tok123" "") 1)).
Defined.

(* ===================================================================== *)
(** ** Tokens that were never issued *)
(* ===================================================================== *)

Lemma perform_keeps_unknown (cfg : Config) (a : action) (w : World) (tok : string) :
  ~ draws a tok -> first_by_token tok (table w) = None ->
  first_by_token tok (table (perform cfg a w)) = None.
Proof.
  intros Hd Hn.
  assert (forall email_arg rnd clock, rnd <> tok ->
            first_by_token tok
              (table (world (create_token cfg email_arg rnd clock w))) = None)
    as Hcreate.
  { intros email_arg rnd clock Hne.
    destruct (create_token_table cfg email_arg rnd clock w)
      as [->|(r & Ht & _ & _ & ->)]; [assumption|].
    rewrite first_by_token_app, Hn. unfold first_by_token. simpl.
    rewrite Ht. destruct (String.eqb rnd tok) eqn:E; [|reflexivity].
    apply String.eqb_eq in E. congruence. }
  destruct a as [req clock|req clock|relay text rnd clock| | | |data
                 |email_arg rnd clock|tok'|tok']; simpl in *.
  - rewrite get_reset_run. cbv zeta. now destruct (negb _).
  - rewrite post_reset_run. cbv zeta.
    destruct (negb _ || negb _); [assumption|].
    destruct (first_by_token (multidict_get (args req) "token" "") (table w))
      as [row|] eqn:E; [|assumption].
    destruct (used row || _); [assumption|]. unfold world. simpl.
    destruct (String.eqb tok (multidict_get (args req) "token" "")) eqn:E'.
    + apply String.eqb_eq in E'. congruence.
    + apply String.eqb_neq in E'. now rewrite set_used_other.
  - destruct (receive_email_table cfg relay text rnd clock w) as [->| ->];
      [assumption|]. now apply Hcreate.
  - assumption.
  - assumption.
  - assumption.
  - unfold button_callback, bind, emit, ret, world. simpl.
    now destruct (String.eqb data "reset").
  - now apply Hcreate.
  - assumption.
  - rewrite mark_used_table.
    destruct (String.eqb tok tok') eqn:E'.
    + apply String.eqb_eq in E' as <-. now rewrite set_used_absent.
    + apply String.eqb_neq in E'. now rewrite set_used_other.
Qed.

(** A token the system never drew is never accepted.  If no row carries
    [tok] and no action of a run draws it from the random source, then after
    the run the GET with [tok] renders "Invalid token." and the POST with
    [tok] and a password answers 400 "Invalid or expired token", with the
    table left as it is. *)
Theorem never_issued_is_invalid (cfg : Config) (acts : list action) (w : World)
    (tok : string) :
  Py.truthy tok = true ->
  first_by_token tok (table w) = None ->
  Forall (fun a => ~ draws a tok) acts ->
  forall (req : Request) (clock : datetime.t), presents req tok ->
    value (get_reset req clock (run cfg acts w))
    = Ok (Rendered (Some "Invalid token.") false None) /\
    (has_password req ->
     value (post_reset req clock (run cfg acts w))
     = Ok (Body "Invalid or expired token" 400)) /\
    table (world (post_reset req clock (run cfg acts w)))
    = table (run cfg acts w).
Proof.
  intros Ht Hn Hacts req clock Hreq.
  assert (first_by_token tok (table (run cfg acts w)) = None) as H.
  { revert w Hn. induction Hacts as [|a acts Ha _ IH]; intros w Hn;
      [assumption|].
    rewrite run_cons. apply IH. now apply perform_keeps_unknown. }
  unfold presents, has_password in *. subst tok.
  rewrite get_reset_run, post_reset_run. cbv zeta. rewrite Ht, H. simpl.
  split; [reflexivity|]. split.
  - now intros ->.
  - now destruct (negb _).
Qed.

Lemma never_issued_is_invalid_witness :
  value (get_reset (request_of "guess" "") 9
           (run default_config
              [CreateToken "b@example.com" "tok2" 2; MarkUsed "tok123"]
              issued_world))
  = Ok (Rendered (Some "Invalid token.") false None).
Proof.
  assert (Forall (fun a => ~ draws a "guess")
            [CreateToken "b@example.com" "tok2" 2; MarkUsed "tok123"]) as H.
  { repeat constructor; simpl; [discriminate|tauto]. }
  exact (proj1 (never_issued_is_invalid default_config _ issued_world "guess"
                  eq_refl eq_refl H (request_of "guess" "") 9 eq_refl)).
Defined.
